(** * SimpleGoBoard: the padded one-dimensional Gomoku board of simple_board.py

    The development embeds the board class of [simple_board.py]:
    - markers, exceptions and numpy-style array access;
    - the board record with the fields that [reset] creates;
    - construction, eye detection, move execution and the win scan as
      functions on the state of [self];
    - a store of objects and arrays for [copy] and [is_legal], where the
      identity of the array that a board owns matters. *)

From stdpp Require Import base numbers list gmap.
From Stdlib Require Sorted.

Local Open Scope Z_scope.

(** ** Markers and constants of board_util *)

(** Modelled from the spec: the module board_util is imported by
    simple_board.py but is not part of the sources.  The spec names four
    cell markers (EMPTY, BLACK, WHITE, BORDER); their integer encoding is
    not given, so they are kept abstract as an enumeration. *)
Inductive color : Type := EMPTY | BLACK | WHITE | BORDER.

#[global] Instance color_eq_dec : EqDecision color.
Proof. solve_decision. Defined.

(** Modelled from the spec: board_util.is_black_white, the test behind the
    contract "color is BLACK or WHITE". *)
Definition is_black_white (c : color) : bool :=
  match c with
  | BLACK | WHITE => true
  | EMPTY | BORDER => false
  end.

(** Modelled from the spec: GoBoardUtil.opponent, "the opponent of color".
    The spec fixes it on the two stone colors only; the other two markers
    are left as they are and no result below depends on that choice. *)
Definition opponent (c : color) : color :=
  match c with
  | BLACK => WHITE
  | WHITE => BLACK
  | EMPTY => EMPTY
  | BORDER => BORDER
  end.

(** Modelled from the spec: the argument of [play_move] is either the
    reserved value PASS or an integer address. *)
Inductive move : Type :=
  | PASS
  | Point (p : Z).

(** Modelled from the spec: board_util.coord_to_point,
    [address = row * NS + column] with [NS = size + 1]. *)
Definition coord_to_point (row col size : Z) : Z := row * (size + 1) + col.

(** ** Exceptions *)

Inductive exn : Type := AssertionError | IndexError.

Inductive result (A : Type) : Type :=
  | Ok (a : A)
  | Raise (e : exn).
Arguments Ok {A} a.
Arguments Raise {A} e.

Definition bind {A B : Type} (r : result A) (k : A -> result B) : result B :=
  match r with
  | Ok a => k a
  | Raise e => Raise e
  end.

Notation "x <- r ;; k" := (bind r (fun x => k))
  (at level 100, r at next level, right associativity, only parsing).

Definition assert (b : bool) : result unit :=
  if b then Ok tt else Raise AssertionError.

(** ** One-dimensional numpy arrays *)

Definition len {A : Type} (a : list A) : Z := Z.of_nat (length a).

(** An integer index reaches position [i] when [0 <= i < n], position
    [n + i] when [-n <= i < 0], and is an IndexError otherwise.  This is
    numpy on indices that fit its signed 64-bit index type; for an index
    beyond that range numpy reports an overflow, which the model does not
    tell apart. *)
Definition np_index (n i : Z) : option nat :=
  if bool_decide (0 <= i < n) then Some (Z.to_nat i)
  else if bool_decide (- n <= i < 0) then Some (Z.to_nat (n + i))
  else None.

(** [a[i]] *)
Definition getitem {A : Type} (a : list A) (i : Z) : result A :=
  match np_index (len a) i with
  | Some k =>
      match a !! k with
      | Some v => Ok v
      | None => Raise IndexError
      end
  | None => Raise IndexError
  end.

(** [a[i] = v] *)
Definition setitem {A : Type} (a : list A) (i : Z) (v : A) : result (list A) :=
  match np_index (len a) i with
  | Some k => Ok (<[k := v]> a)
  | None => Raise IndexError
  end.

(** A slice bound is clipped to the array: a negative bound counts from
    the end, and both ends are cut to [0 .. n]. *)
Definition slice_bound (n i : Z) : nat :=
  Z.to_nat (if bool_decide (i < 0) then Z.max 0 (n + i) else Z.min i n).

(** [a[start : stop] = v], which never raises. *)
Definition setslice {A : Type} (a : list A) (start stop : Z) (v : A) : list A :=
  let lo := slice_bound (len a) start in
  let hi := slice_bound (len a) stop in
  if bool_decide (lo < hi)%nat
  then take lo a ++ replicate (hi - lo) v ++ drop hi a
  else a.

(** ** The board *)

(** The fields that [reset] assigns.  The record is generic in what the
    field [board] holds: the cells themselves when a method is described as
    a function of the state of [self], a reference when boards live in a
    store. *)
Record GoBoard {A : Type} : Type := mkBoard {
  size : Z;
  NS : Z;
  WE : Z;
  ko_recapture : option Z;
  current_player : color;
  maxpoint : Z;
  board : A;
  winner : option color
}.
Arguments GoBoard A : clear implicits.
Arguments mkBoard {A} _ _ _ _ _ _ _ _.

Definition SimpleGoBoard : Type := GoBoard (list color).

Definition set_board {A B : Type} (b : GoBoard A) (x : B) : GoBoard B :=
  mkBoard (size b) (NS b) (WE b) (ko_recapture b) (current_player b)
          (maxpoint b) x (winner b).

Definition set_winner {A : Type} (b : GoBoard A) (w : option color) : GoBoard A :=
  mkBoard (size b) (NS b) (WE b) (ko_recapture b) (current_player b)
          (maxpoint b) (board b) w.

Definition set_current_player {A : Type} (b : GoBoard A) (c : color) : GoBoard A :=
  mkBoard (size b) (NS b) (WE b) (ko_recapture b) c
          (maxpoint b) (board b) (winner b).

Definition set_ko_recapture {A : Type} (b : GoBoard A) (k : option Z) : GoBoard A :=
  mkBoard (size b) (NS b) (WE b) k (current_player b)
          (maxpoint b) (board b) (winner b).

(** [get_color] *)
Definition get_color (b : SimpleGoBoard) (point : Z) : result color :=
  getitem (board b) point.

(** [pt] *)
Definition pt {A : Type} (b : GoBoard A) (row col : Z) : Z :=
  coord_to_point row col (size b).

(** ** Construction *)

(** [row_start], with the size and stride it reads from [self]. *)
Definition row_start (size NS row : Z) : result Z :=
  _ <- assert (bool_decide (row >= 1)) ;;
  _ <- assert (bool_decide (row <= size)) ;;
  Ok (row * NS + 1).

(** The body of the loop of [_initialize_empty_points] for one row. *)
Definition init_row (size NS : Z) (cells : list color) (row : Z)
  : result (list color) :=
  start <- row_start size NS row ;;
  Ok (setslice cells start (start + size) EMPTY).

(** The loop [for row in range(1, self.size + 1)], over the rows still to
    be visited. *)
Fixpoint init_rows (size NS : Z) (rows : list Z) (cells : list color)
  : result (list color) :=
  match rows with
  | [] => Ok cells
  | row :: rest =>
      cells' <- init_row size NS cells row ;;
      init_rows size NS rest cells'
  end.

(** [_initialize_empty_points] *)
Definition _initialize_empty_points (size NS : Z) (cells : list color)
  : result (list color) :=
  init_rows size NS (seqZ 1 size) cells.

(** [reset], building the state of a new board. *)
Definition reset (sz : Z) : result SimpleGoBoard :=
  let ns := sz + 1 in
  let mp := sz * sz + 3 * (sz + 1) in
  let full := replicate (Z.to_nat mp) BORDER in
  cells <- _initialize_empty_points sz ns full ;;
  Ok (mkBoard sz ns 1 None BLACK mp cells None).

(** [__init__].  MAXSIZE, the largest board side, is a constant of
    board_util whose value is not part of the sources; it is an argument
    here. *)
Definition init (MAXSIZE sz : Z) : result SimpleGoBoard :=
  _ <- assert (bool_decide (2 <= sz <= MAXSIZE)) ;;
  reset sz.

(** ** Geometry *)

Definition _neighbors {A : Type} (b : GoBoard A) (point : Z) : list Z :=
  [point - 1; point + 1; point - NS b; point + NS b].

Definition _diag_neighbors {A : Type} (b : GoBoard A) (point : Z) : list Z :=
  [point - NS b - 1; point - NS b + 1; point + NS b - 1; point + NS b + 1].

(** ** Eye detection *)

(** The loop of [_is_surrounded] over the neighbours still to be read. *)
Fixpoint surrounded_loop (cells : list color) (c : color) (nbs : list Z)
  : result bool :=
  match nbs with
  | [] => Ok true
  | nb :: rest =>
      nb_color <- getitem cells nb ;;
      if bool_decide (nb_color <> BORDER) && bool_decide (nb_color <> c)
      then Ok false
      else surrounded_loop cells c rest
  end.

Definition _is_surrounded (b : SimpleGoBoard) (point : Z) (c : color)
  : result bool :=
  surrounded_loop (board b) c (_neighbors b point).

(** The loop of [is_eye] over the diagonal neighbours, carrying
    [(false_count, at_edge)]. *)
Fixpoint diag_loop (cells : list color) (opp_color : color) (ds : list Z)
    (false_count at_edge : Z) : result (Z * Z) :=
  match ds with
  | [] => Ok (false_count, at_edge)
  | d :: rest =>
      v <- getitem cells d ;;
      if bool_decide (v = BORDER)
      then diag_loop cells opp_color rest false_count 1
      else if bool_decide (v = opp_color)
      then diag_loop cells opp_color rest (false_count + 1) at_edge
      else diag_loop cells opp_color rest false_count at_edge
  end.

Definition is_eye (b : SimpleGoBoard) (point : Z) (c : color) : result bool :=
  surrounded <- _is_surrounded b point c ;;
  if negb surrounded then Ok false
  else
    let opp_color := opponent c in
    counts <- diag_loop (board b) opp_color (_diag_neighbors b point) 0 0 ;;
    let '(false_count, at_edge) := counts in
    Ok (bool_decide (false_count <= 1 - at_edge)).

(** ** Move execution and the win scan *)

(** One pass [for i in range(5)] of the win scan, started with the running
    [count] and [location].  The cell is read only after the test
    [location > 0 and location < len(self.board)], so the read cannot
    raise; outside that range the pass neither counts nor moves on.
    Leaving the function with [count] is the [break]. *)
Fixpoint scan (cells : list color) (c : color) (step : Z) (n : nat)
    (count location : Z) : Z :=
  match n with
  | O => count
  | S n' =>
      if bool_decide (location > 0) && bool_decide (location < len cells)
      then
        if bool_decide (cells !! Z.to_nat location = Some c)
        then scan cells c step n' (count + 1) (location + step)
        else count
      else scan cells c step n' count location
  end.

(** The count of one axis: [count = -1], a pass adding [step] from
    [point], then a pass subtracting it from [point] again. *)
Definition axis_count (cells : list color) (c : color) (point step : Z) : Z :=
  let count := -1 in
  let count := scan cells c step 5 count point in
  let count := scan cells c (- step) 5 count point in
  count.

(** [if count >= 5: self.winner = color] *)
Definition check_axis (b : SimpleGoBoard) (c : color) (point step : Z)
  : SimpleGoBoard :=
  if bool_decide (axis_count (board b) c point step >= 5)
  then set_winner b (Some c)
  else b.

(** [play_move]: the returned boolean and the state of [self] afterwards.
    Both exceptions it can raise, the assertion on the color and the read
    of [self.board[point]], come before the first assignment. *)
Definition play_move (b : SimpleGoBoard) (point : move) (c : color)
  : result (bool * SimpleGoBoard) :=
  _ <- assert (is_black_white c) ;;
  match point with
  | PASS => Ok (true, set_current_player b (opponent c))
  | Point p =>
      v <- getitem (board b) p ;;
      if bool_decide (v <> EMPTY) then Ok (false, b)
      else
        cells <- setitem (board b) p c ;;
        let b := set_board b cells in
        let b := check_axis b c p 1 in
        let b := check_axis b c p (size b + 1) in
        let b := check_axis b c p (size b + 2) in
        let b := check_axis b c p (size b) in
        let b := set_current_player b (opponent c) in
        Ok (true, b)
  end.

(** ** Boards in a store *)

(** Objects and numpy arrays are reached through references.  An object
    holds the reference of its array in the field [board]. *)
Definition loc : Type := positive.

Record heap : Type := mkHeap {
  objects : gmap loc (GoBoard loc);
  arrays : gmap loc (list color)
}.

(** A computation on the store ends normally or with an exception, and
    leaves a store either way.  [None] stands for a store in which a
    reference that is followed does not exist, which no run produces. *)
Definition HM (A : Type) : Type := heap -> option (result A * heap).

Definition retH {A : Type} (a : A) : HM A := fun h => Some (Ok a, h).

Definition raiseH {A : Type} (e : exn) : HM A := fun h => Some (Raise e, h).

Definition bindH {A B : Type} (m : HM A) (k : A -> HM B) : HM B :=
  fun h =>
    match m h with
    | Some (Ok a, h') => k a h'
    | Some (Raise e, h') => Some (Raise e, h')
    | None => None
    end.

Notation "x <~ m ;; k" := (bindH m (fun x => k))
  (at level 100, m at next level, right associativity, only parsing).

Definition assertH (b : bool) : HM unit :=
  if b then retH tt else raiseH AssertionError.

Definition get_attr {A : Type} (self : loc) (f : GoBoard loc -> A) : HM A :=
  fun h =>
    match objects h !! self with
    | Some o => Some (Ok (f o), h)
    | None => None
    end.

Definition set_attr (self : loc) (upd : GoBoard loc -> GoBoard loc) : HM unit :=
  fun h =>
    match objects h !! self with
    | Some o => Some (Ok tt, mkHeap (<[self := upd o]> (objects h)) (arrays h))
    | None => None
    end.

Definition read_array (a : loc) : HM (list color) :=
  fun h =>
    match arrays h !! a with
    | Some cells => Some (Ok cells, h)
    | None => None
    end.

Definition new_array (cells : list color) : HM loc :=
  fun h =>
    let a := fresh (dom (arrays h)) in
    Some (Ok a, mkHeap (objects h) (<[a := cells]> (arrays h))).

Definition new_object (o : GoBoard loc) : HM loc :=
  fun h =>
    let l := fresh (dom (objects h)) in
    Some (Ok l, mkHeap (<[l := o]> (objects h)) (arrays h)).

(** The state of the board object [self]: its fields, with the cells of
    the array it refers to. *)
Definition load (h : heap) (self : loc) : option SimpleGoBoard :=
  match objects h !! self with
  | Some o =>
      match arrays h !! board o with
      | Some cells => Some (set_board o cells)
      | None => None
      end
  | None => None
  end.

(** [SimpleGoBoard(size)]: a new object whose field [board] refers to a
    new array ([np.full]), filled by [reset]. *)
Definition new_board (MAXSIZE sz : Z) : HM loc :=
  match init MAXSIZE sz with
  | Raise e => raiseH e
  | Ok s =>
      a <~ new_array (board s) ;;
      new_object (set_board s a)
  end.

(** [self.play_move(point, color)] on an object of the store: the fields
    of [self] and the array [self.board] are updated in place; the field
    [board] keeps its reference. *)
Definition play_move_obj (self : loc) (point : move) (c : color) : HM bool :=
  fun h =>
    match objects h !! self with
    | Some o =>
        match arrays h !! board o with
        | Some cells =>
            match play_move (set_board o cells) point c with
            | Ok (legal, s') =>
                Some (Ok legal,
                      mkHeap (<[self := set_board s' (board o)]> (objects h))
                             (<[board o := board s']> (arrays h)))
            | Raise e => Some (Raise e, h)
            end
        | None => None
        end
    | None => None
    end.

(** [copy] *)
Definition copy (MAXSIZE : Z) (self : loc) : HM loc :=
  sz <~ get_attr self size ;;
  b <~ new_board MAXSIZE sz ;;
  w <~ get_attr self winner ;;
  _ <~ set_attr b (fun o => set_winner o w) ;;
  b_NS <~ get_attr b NS ;;
  self_NS <~ get_attr self NS ;;
  _ <~ assertH (bool_decide (b_NS = self_NS)) ;;
  b_WE <~ get_attr b WE ;;
  self_WE <~ get_attr self WE ;;
  _ <~ assertH (bool_decide (b_WE = self_WE)) ;;
  ko <~ get_attr self ko_recapture ;;
  _ <~ set_attr b (fun o => set_ko_recapture o ko) ;;
  cp <~ get_attr self current_player ;;
  _ <~ set_attr b (fun o => set_current_player o cp) ;;
  b_maxpoint <~ get_attr b maxpoint ;;
  self_maxpoint <~ get_attr self maxpoint ;;
  _ <~ assertH (bool_decide (b_maxpoint = self_maxpoint)) ;;
  self_board <~ get_attr self board ;;
  cells <~ read_array self_board ;;
  a <~ new_array cells ;;
  _ <~ set_attr b (fun o => set_board o a) ;;
  retH b.

(** [is_legal] *)
Definition is_legal (MAXSIZE : Z) (self : loc) (point : move) (c : color)
  : HM bool :=
  board_copy <~ copy MAXSIZE self ;;
  legal <~ play_move_obj board_copy point c ;;
  retH legal.

(** ** Well-formed boards *)

(** The address [p] is [row * (sz + 1) + col] for a row and a column of
    the playable grid. *)
Definition on_board (sz p : Z) : bool :=
  bool_decide (1 <= p / (sz + 1) <= sz) && bool_decide (1 <= p mod (sz + 1) <= sz).

(** Playable cells hold a playable marker, all other cells hold BORDER. *)
Definition cell_ok (sz : Z) (i : nat) (v : color) : bool :=
  if on_board sz (Z.of_nat i) then bool_decide (v <> BORDER) else bool_decide (v = BORDER).

Fixpoint cells_ok_from (sz : Z) (i : nat) (cells : list color) : bool :=
  match cells with
  | [] => true
  | v :: rest => cell_ok sz i v && cells_ok_from sz (S i) rest
  end.

Definition cells_ok (sz : Z) (cells : list color) : bool := cells_ok_from sz 0 cells.

(** The state of a board that [__init__] has built and [play_move] has
    changed: the dimensions that [reset] computes, and the border in
    place. *)
Record wf_board (b : SimpleGoBoard) : Prop := mk_wf {
  wf_size : 2 <= size b;
  wf_NS : NS b = size b + 1;
  wf_WE : WE b = 1;
  wf_maxpoint : maxpoint b = size b * size b + 3 * (size b + 1);
  wf_len : len (board b) = maxpoint b;
  wf_cells : cells_ok (size b) (board b) = true
}.

(** ** Lines of five *)

(** A stone of color [c] lies at the address [i] of the array. *)
Definition stone_at (cells : list color) (c : color) (i : Z) : Prop :=
  0 <= i /\ cells !! Z.to_nat i = Some c.

(** The address [p] belongs to five addresses in a row, [step] apart, that
    all hold a stone of color [c]: [p] is the one at position [k] of the
    five. *)
Definition in_line_of_five (cells : list color) (c : color) (p step : Z) : Prop :=
  exists k, 0 <= k <= 4 /\
    forall j, 0 <= j <= 4 -> stone_at cells c (p + (j - k) * step).

(** A line of five through [p] along one of the four axes of the board. *)
Definition five_through (b : SimpleGoBoard) (c : color) (p : Z) : Prop :=
  in_line_of_five (board b) c p 1 \/
  in_line_of_five (board b) c p (size b + 1) \/
  in_line_of_five (board b) c p (size b + 2) \/
  in_line_of_five (board b) c p (size b).

(** The cell that one step of a pass counts: inside the range that the pass
    tests, and of the color played. *)
Definition counted (cells : list color) (c : color) (i : Z) : Prop :=
  0 < i < len cells /\ cells !! Z.to_nat i = Some c.

(** ** Boards used in the examples *)

Definition empty_cells5 : list color :=
  [BORDER; BORDER; BORDER; BORDER; BORDER; BORDER;
   BORDER; EMPTY; EMPTY; EMPTY; EMPTY; EMPTY;
   BORDER; EMPTY; EMPTY; EMPTY; EMPTY; EMPTY;
   BORDER; EMPTY; EMPTY; EMPTY; EMPTY; EMPTY;
   BORDER; EMPTY; EMPTY; EMPTY; EMPTY; EMPTY;
   BORDER; EMPTY; EMPTY; EMPTY; EMPTY; EMPTY;
   BORDER; BORDER; BORDER; BORDER; BORDER; BORDER; BORDER].

(** The board of side 5 as [__init__] leaves it. *)
Definition empty5 : SimpleGoBoard := mkBoard 5 6 1 None BLACK 43 empty_cells5 None.

(** Stones of one color put on the given addresses of a board. *)
Definition with_stones (b : SimpleGoBoard) (c : color) (ps : list Z) : SimpleGoBoard :=
  set_board b (foldr (fun p cells => <[Z.to_nat p := c]> cells) (board b) ps).

(** ** Counting and layout *)

(** The number of cells that hold the marker [c]. *)
Definition count_color (c : color) (cells : list color) : nat :=
  length (filter (fun v => v = c) cells).

(** One row of the padded array: the border cell of column 0, then the
    [sz] playable cells. *)
Definition empty_row (sz : Z) : list color :=
  BORDER :: replicate (Z.to_nat sz) EMPTY.

(** The array with the first [k] playable rows emptied: the border row 0,
    [k] rows, and border cells up to the length [sz * sz + 3 * (sz + 1)]. *)
Definition layout (sz : Z) (k : nat) : list color :=
  replicate (Z.to_nat (sz + 1)) BORDER
  ++ concat (replicate k (empty_row sz))
  ++ replicate (Z.to_nat (sz * sz + 3 * (sz + 1)) - (S k) * Z.to_nat (sz + 1)) BORDER.

(** ** Eyes *)

(** The eye test on the markers [nbs] of the four neighbours and [diags]
    of the four diagonal neighbours of a point: every neighbour is BORDER
    or of color [c], and the opponent stones on the diagonals are at most
    one, and none when a diagonal is a border cell. *)
Definition eye_shape (c : color) (nbs diags : list color) : Prop :=
  Forall (fun v => v = BORDER \/ v = c) nbs /\
  let false_count := Z.of_nat (count_color (opponent c) diags) in
  let at_edge := if bool_decide (BORDER ∈ diags) then 1 else 0 in
  false_count <= 1 - at_edge.

(** A store with one board, the empty board of side 5. *)
Definition heap5 : heap :=
  mkHeap {[ 1%positive := set_board empty5 1%positive ]}
         {[ 1%positive := empty_cells5 ]}.

(** Moves played one after the other with [play_move], whatever they
    return. *)
Fixpoint play_all (b : SimpleGoBoard) (ms : list (Z * color)) : SimpleGoBoard :=
  match ms with
  | [] => b
  | (p, c) :: rest =>
      match play_move b (Point p) c with
      | Ok (_, b') => play_all b' rest
      | Raise _ => b
      end
  end.

(** BLACK has completed the row 19..23 of the board of side 5, WHITE
    holds 7..10 of the first row. *)
Definition black_has_won : SimpleGoBoard :=
  Eval vm_compute in
  play_all empty5
    [(19, BLACK); (7, WHITE); (20, BLACK); (8, WHITE); (21, BLACK);
     (9, WHITE); (22, BLACK); (10, WHITE); (23, BLACK)].

(** The test of the four axes after a stone of color [c] was put on [p]. *)
Definition wins (cells : list color) (sz : Z) (c : color) (p : Z) : bool :=
  bool_decide (axis_count cells c p 1 >= 5) ||
  bool_decide (axis_count cells c p (sz + 1) >= 5) ||
  bool_decide (axis_count cells c p (sz + 2) >= 5) ||
  bool_decide (axis_count cells c p sz >= 5).

(** ** Empty points *)

(** Modelled from the spec: board_util.where1d, the addresses at which a
    condition holds, in ascending order.  [where1d_from i] numbers the
    first element [i]. *)
Fixpoint where1d_from (i : Z) (cond : list bool) : list Z :=
  match cond with
  | [] => []
  | x :: rest =>
      if x then i :: where1d_from (i + 1) rest else where1d_from (i + 1) rest
  end.

Definition where1d (cond : list bool) : list Z := where1d_from 0 cond.

(** [get_empty_points]: [self.board == EMPTY] compares cell by cell. *)
Definition get_empty_points (b : SimpleGoBoard) : list Z :=
  where1d (map (fun v => bool_decide (v = EMPTY)) (board b)).

(** ** Blocks and liberties *)

(** The loop of [neighbors_of_color], with the list [nbc] built so far. *)
Fixpoint neighbors_of_color_loop (cells : list color) (c : color)
    (nbs : list Z) (nbc : list Z) : result (list Z) :=
  match nbs with
  | [] => Ok nbc
  | nb :: rest =>
      v <- getitem cells nb ;;
      if bool_decide (v = c)
      then neighbors_of_color_loop cells c rest (nbc ++ [nb])
      else neighbors_of_color_loop cells c rest nbc
  end.

Definition neighbors_of_color (b : SimpleGoBoard) (point : Z) (c : color)
  : result (list Z) :=
  neighbors_of_color_loop (board b) c (_neighbors b point) [].

(** The loop [for nb in neighbors] of [_block_of], on the marker array and
    the stack.  The stack is kept with its top, the end of the Python
    list, first: [append] is a cons and [pop] takes the head. *)
Fixpoint mark_loop (nbs : list Z) (marker : list bool) (pointstack : list Z)
  : result (list bool * list Z) :=
  match nbs with
  | [] => Ok (marker, pointstack)
  | nb :: rest =>
      m <- getitem marker nb ;;
      if negb m
      then
        marker' <- setitem marker nb true ;;
        mark_loop rest marker' (nb :: pointstack)
      else mark_loop rest marker pointstack
  end.

(** The loop [while pointstack] of [_block_of], for at most [fuel] rounds;
    [None] when the rounds are used up with points left on the stack. *)
Fixpoint block_loop (fuel : nat) (b : SimpleGoBoard) (c : color)
    (marker : list bool) (pointstack : list Z) : option (result (list bool)) :=
  match pointstack with
  | [] => Some (Ok marker)
  | p :: rest =>
      match fuel with
      | O => None
      | S fuel' =>
          match neighbors_of_color b p c with
          | Raise e => Some (Raise e)
          | Ok neighbors =>
              match mark_loop neighbors marker rest with
              | Raise e => Some (Raise e)
              | Ok (marker', pointstack') =>
                  block_loop fuel' b c marker' pointstack'
              end
          end
      end
  end.

(** [_block_of].  The loop gets as many rounds as the marker array has
    cells, which is as many as it can take. *)
Definition _block_of (b : SimpleGoBoard) (stone : Z) : option (result (list bool)) :=
  let marker := replicate (Z.to_nat (maxpoint b)) false in
  match get_color b stone with
  | Raise e => Some (Raise e)
  | Ok c =>
      if negb (is_black_white c) then Some (Raise AssertionError)
      else
        match setitem marker stone true with
        | Raise e => Some (Raise e)
        | Ok marker' => block_loop (length marker') b c marker' [stone]
        end
  end.

(** The loop of [_has_liberty] over the stones of the block. *)
Fixpoint has_liberty_loop (b : SimpleGoBoard) (stones : list Z) : result bool :=
  match stones with
  | [] => Ok false
  | stone :: rest =>
      empty_nbs <- neighbors_of_color b stone EMPTY ;;
      match empty_nbs with
      | _ :: _ => Ok true
      | [] => has_liberty_loop b rest
      end
  end.

Definition _has_liberty (b : SimpleGoBoard) (block : list bool) : result bool :=
  has_liberty_loop b (where1d block).

(** [a[idxs] = v] for a list of integer indices: every index is checked
    before a cell is written. *)
Fixpoint index_all (n : Z) (idxs : list Z) : option (list nat) :=
  match idxs with
  | [] => Some []
  | i :: rest =>
      match np_index n i, index_all n rest with
      | Some k, Some ks => Some (k :: ks)
      | _, _ => None
      end
  end.

Definition setitems {A : Type} (a : list A) (idxs : list Z) (v : A)
  : result (list A) :=
  match index_all (len a) idxs with
  | Some ks => Ok (foldl (fun cells k => <[k := v]> cells) a ks)
  | None => Raise IndexError
  end.

(** [_detect_and_process_capture]: the value returned, [None] or the
    point, and the state of [self] afterwards. *)
Definition _detect_and_process_capture (b : SimpleGoBoard) (nb_point : Z)
  : option (result (option Z * SimpleGoBoard)) :=
  match _block_of b nb_point with
  | None => None
  | Some (Raise e) => Some (Raise e)
  | Some (Ok opp_block) =>
      Some (
        liberty <- _has_liberty b opp_block ;;
        if negb liberty
        then
          let captures := where1d opp_block in
          cells <- setitems (board b) captures EMPTY ;;
          let single_capture :=
            if bool_decide (len captures = 1) then Some nb_point else None in
          Ok (single_capture, set_board b cells)
        else Ok (None, b))
  end.

(** ** Specifications used below *)

(** A pass, or an address that is not negative. *)
Definition proper_move (m : move) : Prop :=
  match m with
  | PASS => True
  | Point p => 0 <= p
  end.

(** The boards that a program gets from [__init__] by calls of [play_move]
    with passes and addresses that are not negative. *)
Inductive reachable (MAXSIZE : Z) : SimpleGoBoard -> Prop :=
  | reach_init (sz : Z) (b : SimpleGoBoard) :
      init MAXSIZE sz = Ok b -> reachable MAXSIZE b
  | reach_move (b b' : SimpleGoBoard) (m : move) (c : color) (r : bool) :
      reachable MAXSIZE b -> proper_move m -> play_move b m c = Ok (r, b') ->
      reachable MAXSIZE b'.

(** Some five stones of one stone color stand in a row on the board. *)
Definition has_five (b : SimpleGoBoard) : Prop :=
  exists c p, is_black_white c = true /\ five_through b c p.

(** The points joined to [stone] by a path of neighbours that all hold the
    color [c]. *)
Inductive connected (b : SimpleGoBoard) (c : color) (stone : Z) : Z -> Prop :=
  | connected_stone : connected b c stone stone
  | connected_step (q n : Z) :
      connected b c stone q ->
      n ∈ _neighbors b q ->
      get_color b n = Ok c ->
      connected b c stone n.

(** The point [q] is marked in a marker array. *)
Definition marked (marker : list bool) (q : Z) : Prop :=
  0 <= q /\ marker !! Z.to_nat q = Some true.

(** A corner of the board of side 5 closed in by WHITE: a black stone on
    7 with white stones on 8 and 13. *)
Definition captured_corner : SimpleGoBoard :=
  with_stones (with_stones empty5 WHITE [8; 13]) BLACK [7].

(** The four axes of the board as steps in row and column: along a row,
    along a column, and along the two diagonals. *)
Definition axes : list (Z * Z) := [(0, 1); (1, 0); (1, 1); (1, -1)].

(** Five stones of color [c] on five points of the playable grid in a row
    along an axis, the point [p] among them. *)
Definition geometric_five (b : SimpleGoBoard) (c : color) (p : Z) : Prop :=
  exists row col dr dc k,
    (dr, dc) ∈ axes /\ 0 <= k <= 4 /\
    p = pt b (row + k * dr) (col + k * dc) /\
    forall j, 0 <= j <= 4 ->
      1 <= row + j * dr <= size b /\ 1 <= col + j * dc <= size b /\
      get_color b (pt b (row + j * dr) (col + j * dc)) = Ok c.

#[global] Instance exn_eq_dec : EqDecision exn.
Proof. solve_decision. Defined.

#[global] Instance result_eq_dec {A : Type} `{EqDecision A} : EqDecision (result A).
Proof. solve_decision. Defined.

(** The number of cells of a marker array that are not marked. *)
Definition count_false (marker : list bool) : nat :=
  length (filter (fun x => x = false) marker).

#[global] Instance marked_dec (marker : list bool) (q : Z) : Decision (marked marker q).
Proof. unfold marked. apply _. Defined.

(** ** Array access *)

Lemma np_index_in_range (n i : Z) :
  0 <= i < n -> np_index n i = Some (Z.to_nat i).
Proof. intros H. unfold np_index. by rewrite bool_decide_eq_true_2. Qed.

Lemma lookup_in_range {A : Type} (a : list A) (i : Z) :
  0 <= i < len a -> is_Some (a !! Z.to_nat i).
Proof. intros H. apply lookup_lt_is_Some. unfold len in H. lia. Qed.

Lemma getitem_in_range {A : Type} (a : list A) (i : Z) (v : A) :
  0 <= i < len a -> getitem a i = Ok v <-> a !! Z.to_nat i = Some v.
Proof.
  intros H. unfold getitem. rewrite np_index_in_range by done.
  destruct (lookup_in_range a i H) as [w Hw]. rewrite Hw.
  split; congruence.
Qed.

Lemma getitem_lookup {A : Type} (a : list A) (i : Z) (v : A) :
  0 <= i -> a !! Z.to_nat i = Some v -> getitem a i = Ok v.
Proof.
  intros Hi Hv. apply getitem_in_range; [|done].
  apply lookup_lt_Some in Hv. unfold len. lia.
Qed.

Lemma np_index_lt (n i : Z) (k : nat) :
  np_index n i = Some k -> (Z.of_nat k < n).
Proof.
  unfold np_index. repeat case_bool_decide; intros [= <-]; lia.
Qed.

Lemma getitem_setitem {A : Type} (a : list A) (i : Z) (v w : A) :
  getitem a i = Ok v ->
  exists k, np_index (len a) i = Some k /\ a !! k = Some v /\
            setitem a i w = Ok (<[k := w]> a).
Proof.
  unfold getitem, setitem. destruct (np_index (len a) i) as [k|]; [|done].
  destruct (a !! k) as [u|] eqn:Hu; [|done]. intros [= ->]. eauto.
Qed.

Lemma len_insert {A : Type} (a : list A) (k : nat) (v : A) :
  len (<[k := v]> a) = len a.
Proof. unfold len. by rewrite length_insert. Qed.

Lemma empty5_init : init 25 5 = Ok empty5.
Proof. reflexivity. Qed.

(** ** Rejected moves, passes and accepted moves *)

(** The branch [elif self.board[point] != EMPTY: return False]. *)
Lemma play_move_reject (b : SimpleGoBoard) (p : Z) (c v : color) :
  is_black_white c = true ->
  getitem (board b) p = Ok v ->
  v <> EMPTY ->
  play_move b (Point p) c = Ok (false, b).
Proof.
  intros Hc Hv Hne. unfold play_move.
  rewrite Hc, Hv. simpl. by rewrite bool_decide_eq_true_2.
Qed.

(** C2: a move of a stone color onto a point whose cell is read and is not
    EMPTY returns false, and the state of the board afterwards is the state
    before: cells, current_player, winner and ko_recapture alike. *)
Theorem play_move_occupied (b : SimpleGoBoard) (p : Z) (c v : color) :
  is_black_white c = true ->
  get_color b p = Ok v ->
  v <> EMPTY ->
  play_move b (Point p) c = Ok (false, b).
Proof. intros Hc Hv Hne. by apply (play_move_reject b p c v). Qed.

Lemma play_move_occupied_witness :
  play_move (with_stones empty5 WHITE [21]) (Point 21) BLACK
  = Ok (false, with_stones empty5 WHITE [21]).
Proof.
  apply (play_move_occupied (with_stones empty5 WHITE [21]) 21 BLACK WHITE);
    [reflexivity | reflexivity | discriminate].
Defined.

(** C3: a pass of a stone color returns true; the cells, winner and
    ko_recapture are the ones before, and current_player is the opponent
    of the color that passed. *)
Theorem play_move_pass (b : SimpleGoBoard) (c : color) :
  is_black_white c = true ->
  exists b', play_move b PASS c = Ok (true, b') /\
    board b' = board b /\
    winner b' = winner b /\
    ko_recapture b' = ko_recapture b /\
    size b' = size b /\
    current_player b' = opponent c.
Proof.
  intros Hc. exists (set_current_player b (opponent c)).
  unfold play_move. rewrite Hc. simpl. by repeat split.
Qed.

Lemma play_move_pass_witness :
  exists b', play_move empty5 PASS BLACK = Ok (true, b') /\
    board b' = board empty5 /\
    winner b' = winner empty5 /\
    ko_recapture b' = ko_recapture empty5 /\
    size b' = size empty5 /\
    current_player b' = opponent BLACK.
Proof. apply (play_move_pass empty5 BLACK). reflexivity. Defined.

(** The fields that the win checks and the turn change leave alone. *)
Lemma check_axis_fields (b : SimpleGoBoard) (c : color) (p step : Z) :
  board (check_axis b c p step) = board b /\
  size (check_axis b c p step) = size b /\
  NS (check_axis b c p step) = NS b /\
  WE (check_axis b c p step) = WE b /\
  maxpoint (check_axis b c p step) = maxpoint b /\
  ko_recapture (check_axis b c p step) = ko_recapture b /\
  current_player (check_axis b c p step) = current_player b.
Proof. unfold check_axis. by case_bool_decide. Qed.

Lemma check_axis_winner (b : SimpleGoBoard) (c : color) (p step : Z) :
  winner (check_axis b c p step)
  = if bool_decide (axis_count (board b) c p step >= 5) then Some c else winner b.
Proof. unfold check_axis. by case_bool_decide. Qed.

(** What [play_move] does with a point whose cell is EMPTY, in one
    equation: the cell is written, the four axes are checked in turn, the
    turn passes to the opponent. *)
Lemma play_move_empty (b : SimpleGoBoard) (p : Z) (c : color) (k : nat) :
  is_black_white c = true ->
  np_index (len (board b)) p = Some k ->
  board b !! k = Some EMPTY ->
  play_move b (Point p) c =
    Ok (true,
        set_current_player
          (check_axis (check_axis (check_axis (check_axis
             (set_board b (<[k := c]> (board b))) c p 1) c p (size b + 1))
             c p (size b + 2)) c p (size b))
          (opponent c)).
Proof.
  intros Hc Hk Hv. unfold play_move, getitem, setitem.
  rewrite Hc, Hk, Hv. simpl.
  by rewrite !(proj1 (proj2 (check_axis_fields _ _ _ _))).
Qed.

(** C5: a move of a stone color onto a point of the array whose cell is
    EMPTY returns true and writes the color there; every other cell is
    what it was, so no stone is taken off, whatever the liberties of the
    blocks around the point. *)
Theorem play_move_unconditional (b : SimpleGoBoard) (p : Z) (c : color) :
  is_black_white c = true ->
  0 <= p < len (board b) ->
  get_color b p = Ok EMPTY ->
  exists b', play_move b (Point p) c = Ok (true, b') /\
    get_color b' p = Ok c /\
    len (board b') = len (board b) /\
    (forall q, q <> Z.to_nat p -> board b' !! q = board b !! q) /\
    (forall q v, is_black_white v = true ->
                 board b !! q = Some v -> board b' !! q = Some v).
Proof.
  intros Hc Hp Hv. unfold get_color in *.
  apply getitem_in_range in Hv; [|done].
  eexists. split.
  { apply (play_move_empty b p c (Z.to_nat p)); [done| |done].
    by apply np_index_in_range. }
  simpl. rewrite !(proj1 (check_axis_fields _ _ _ _)). simpl.
  split; [|split; [|split]].
  - apply getitem_lookup; [lia|]. apply list_lookup_insert_eq.
    by apply lookup_lt_Some in Hv.
  - apply len_insert.
  - intros q Hq. by apply list_lookup_insert_ne.
  - intros q v Hbw Hq. rewrite list_lookup_insert_ne; [done|].
    intros <-. rewrite Hv in Hq. by injection Hq as <-.
Qed.

(** The corner point 7 of the board of side 5 with white stones on its two
    neighbours 8 and 13: a black stone there has no liberty, and the move
    is accepted all the same, with both white stones still in place. *)
Lemma play_move_unconditional_witness :
  exists b', play_move (with_stones empty5 WHITE [8; 13]) (Point 7) BLACK = Ok (true, b') /\
    get_color b' 7 = Ok BLACK /\
    len (board b') = len (board (with_stones empty5 WHITE [8; 13])) /\
    (forall q, q <> Z.to_nat 7 ->
       board b' !! q = board (with_stones empty5 WHITE [8; 13]) !! q) /\
    (forall q v, is_black_white v = true ->
       board (with_stones empty5 WHITE [8; 13]) !! q = Some v -> board b' !! q = Some v).
Proof.
  apply (play_move_unconditional (with_stones empty5 WHITE [8; 13]) 7 BLACK);
    [reflexivity | by vm_compute | reflexivity].
Defined.

(** ** The win scan *)

Lemma scan_stops (cells : list color) (c : color) (step : Z) (n : nat)
    (count location : Z) :
  ~ counted cells c location -> scan cells c step n count location = count.
Proof.
  intros Hdead. induction n as [|n IH]; [done|]. simpl.
  repeat case_bool_decide; simpl; try done.
  exfalso. apply Hdead. split; [lia|done].
Qed.

(** A pass adds to [count] the number [m] of cells it counts, which are the
    first [m] cells from [location] on; it has at most [n] rounds, and when
    it counts fewer the next cell is not one to count. *)
Lemma scan_spec (cells : list color) (c : color) (step : Z) (n : nat) :
  forall count location,
  exists m, 0 <= m <= Z.of_nat n /\
    scan cells c step n count location = count + m /\
    (forall j, 0 <= j < m -> counted cells c (location + j * step)) /\
    (m < Z.of_nat n -> ~ counted cells c (location + m * step)).
Proof.
  induction n as [|n IH]; intros count location.
  { exists 0. simpl. repeat split; try lia. }
  destruct (decide (counted cells c location)) as [Hlive|Hdead].
  - destruct (IH (count + 1) (location + step)) as (m & Hm & Heq & Hall & Hnext).
    exists (m + 1). split; [lia|]. split; [|split].
    + simpl. destruct Hlive as [Hr Hc].
      rewrite !bool_decide_eq_true_2 by (done || lia). simpl.
      rewrite Heq. lia.
    + intros j Hj. destruct (decide (j = 0)) as [->|Hj0].
      * by replace (location + 0 * step) with location by lia.
      * replace (location + j * step) with (location + step + (j - 1) * step) by lia.
        apply Hall. lia.
    + intros Hlt.
      replace (location + (m + 1) * step) with (location + step + m * step) by lia.
      apply Hnext. lia.
  - exists 0. split; [lia|]. split; [|split].
    + rewrite scan_stops by done. lia.
    + intros j Hj. lia.
    + intros _. by replace (location + 0 * step) with location by lia.
Qed.

(** The count of an axis reaches 5 exactly when the point played is one of
    five counted cells in a row along the axis. *)
Lemma axis_count_five (cells : list color) (c : color) (p step : Z) :
  counted cells c p ->
  axis_count cells c p step >= 5 <->
  exists k, 0 <= k <= 4 /\
    forall j, 0 <= j <= 4 -> counted cells c (p + (j - k) * step).
Proof.
  intros Hp. unfold axis_count.
  destruct (scan_spec cells c step 5 (-1) p) as (mP & HmP & HeqP & HallP & HnextP).
  rewrite HeqP.
  destruct (scan_spec cells c (- step) 5 (-1 + mP) p) as (mN & HmN & HeqN & HallN & HnextN).
  rewrite HeqN.
  assert (1 <= mP) as HP1.
  { destruct (decide (mP = 0)) as [->|]; [|lia].
    exfalso. apply HnextP; [lia|]. by replace (p + 0 * step) with p by lia. }
  assert (1 <= mN) as HN1.
  { destruct (decide (mN = 0)) as [->|]; [|lia].
    exfalso. apply HnextN; [lia|]. by replace (p + 0 * - step) with p by lia. }
  split.
  - intros Hge. exists (mN - 1). split; [lia|]. intros j Hj.
    destruct (decide (j <= mN - 1)) as [Hle|Hgt].
    + replace (p + (j - (mN - 1)) * step) with (p + (mN - 1 - j) * - step) by lia.
      apply HallN. lia.
    + apply HallP. lia.
  - intros (k & Hk & Hwin).
    assert (k + 1 <= mN) as HN.
    { destruct (decide (k + 1 <= mN)) as [|Hlt]; [done|].
      exfalso. apply HnextN; [lia|].
      replace (p + mN * - step) with (p + ((k - mN) - k) * step) by lia.
      apply Hwin. lia. }
    assert (5 - k <= mP) as HP.
    { destruct (decide (5 - k <= mP)) as [|Hlt]; [done|].
      exfalso. apply HnextP; [lia|].
      replace (p + mP * step) with (p + ((mP + k) - k) * step) by lia.
      apply Hwin. lia. }
    lia.
Qed.

(** The two passes of an axis count the point played once each, and the
    count starts at -1: the count is the number of cells from the far end
    of one pass to the far end of the other, each pass reaching at most
    four cells past the point. *)
Lemma axis_count_run (cells : list color) (c : color) (p step : Z) :
  counted cells c p ->
  exists fwd bwd, 1 <= fwd <= 5 /\ 1 <= bwd <= 5 /\
    axis_count cells c p step = -1 + fwd + bwd /\
    (forall j, - bwd < j < fwd -> counted cells c (p + j * step)) /\
    (fwd < 5 -> ~ counted cells c (p + fwd * step)) /\
    (bwd < 5 -> ~ counted cells c (p - bwd * step)).
Proof.
  intros Hp. unfold axis_count.
  destruct (scan_spec cells c step 5 (-1) p) as (mP & HmP & HeqP & HallP & HnextP).
  rewrite HeqP.
  destruct (scan_spec cells c (- step) 5 (-1 + mP) p) as (mN & HmN & HeqN & HallN & HnextN).
  rewrite HeqN.
  assert (1 <= mP) as HP1.
  { destruct (decide (mP = 0)) as [->|]; [|lia].
    exfalso. apply HnextP; [lia|]. by replace (p + 0 * step) with p by lia. }
  assert (1 <= mN) as HN1.
  { destruct (decide (mN = 0)) as [->|]; [|lia].
    exfalso. apply HnextN; [lia|]. by replace (p + 0 * - step) with p by lia. }
  exists mP, mN.
  split; [lia|]. split; [lia|]. split; [lia|]. split; [|split].
  - intros j Hj. destruct (decide (0 <= j)) as [Hj0|Hj0].
    + apply (HallP j). lia.
    + replace (p + j * step) with (p + (- j) * - step) by lia.
      apply (HallN (- j)). lia.
  - intros Hlt. apply HnextP. lia.
  - intros Hlt. replace (p - mN * step) with (p + mN * - step) by lia.
    apply HnextN. lia.
Qed.

(** ** The border invariant *)

Lemma cells_ok_from_lookup (sz : Z) (cells : list color) :
  forall off,
  cells_ok_from sz off cells = true <->
  forall i v, cells !! i = Some v -> cell_ok sz (off + i) v = true.
Proof.
  induction cells as [|u cells IH]; intros off; simpl.
  { split; [intros _ i v Hi; by destruct i | done]. }
  rewrite andb_true_iff, IH. split.
  - intros [Hu Hrest] [|i] v Hi; simpl in Hi.
    + injection Hi as <-. by rewrite Nat.add_0_r.
    + replace (off + S i)%nat with (S off + i)%nat by lia. by apply Hrest.
  - intros Hall. split.
    + specialize (Hall 0%nat u eq_refl). by rewrite Nat.add_0_r in Hall.
    + intros i v Hi. replace (S off + i)%nat with (off + S i)%nat by lia.
      by apply Hall.
Qed.

Lemma cells_ok_lookup (sz : Z) (cells : list color) :
  cells_ok sz cells = true <->
  forall i v, cells !! i = Some v -> cell_ok sz i v = true.
Proof. unfold cells_ok. by rewrite cells_ok_from_lookup. Qed.

Lemma on_board_zero (sz : Z) : on_board sz 0 = false.
Proof.
  unfold on_board. rewrite Zdiv_0_l.
  rewrite bool_decide_eq_false_2; [done|lia].
Qed.

(** Off the playable grid a well-formed board holds BORDER. *)
Lemma wf_border (b : SimpleGoBoard) (i : nat) (v : color) :
  wf_board b -> board b !! i = Some v ->
  on_board (size b) (Z.of_nat i) = false -> v = BORDER.
Proof.
  intros Hwf Hv Hoff.
  pose proof (proj1 (cells_ok_lookup _ _) (wf_cells b Hwf) i v Hv) as Hok.
  unfold cell_ok in Hok. rewrite Hoff in Hok. by apply bool_decide_eq_true in Hok.
Qed.

(** On the playable grid it holds EMPTY, BLACK or WHITE. *)
Lemma wf_playable (b : SimpleGoBoard) (i : nat) (v : color) :
  wf_board b -> board b !! i = Some v ->
  on_board (size b) (Z.of_nat i) = true -> v <> BORDER.
Proof.
  intros Hwf Hv Hon.
  pose proof (proj1 (cells_ok_lookup _ _) (wf_cells b Hwf) i v Hv) as Hok.
  unfold cell_ok in Hok. rewrite Hon in Hok. by apply bool_decide_eq_true in Hok.
Qed.

Lemma wf_len_pos (b : SimpleGoBoard) : wf_board b -> 0 < len (board b).
Proof. intros Hwf. rewrite (wf_len b Hwf), (wf_maxpoint b Hwf). pose proof (wf_size b Hwf). nia. Qed.

Lemma wf_cell_zero (b : SimpleGoBoard) : wf_board b -> board b !! 0%nat = Some BORDER.
Proof.
  intros Hwf. pose proof (wf_len_pos b Hwf) as Hlen.
  destruct (lookup_in_range (board b) 0) as [v Hv]; [lia|].
  change (Z.to_nat 0) with 0%nat in Hv. rewrite Hv. f_equal.
  apply (wf_border b 0%nat v Hwf Hv). apply on_board_zero.
Qed.

(** Writing a stone on an EMPTY cell keeps the border in place. *)
Lemma cells_ok_insert (sz : Z) (cells : list color) (k : nat) (c : color) :
  cells_ok sz cells = true ->
  cells !! k = Some EMPTY ->
  c <> BORDER ->
  cells_ok sz (<[k := c]> cells) = true.
Proof.
  rewrite !cells_ok_lookup. intros Hok Hk Hc i v Hi.
  destruct (decide (i = k)) as [->|Hne].
  - rewrite list_lookup_insert_eq in Hi by (by apply lookup_lt_Some in Hk).
    injection Hi as <-. specialize (Hok k EMPTY Hk). unfold cell_ok in *.
    destruct (on_board sz (Z.of_nat k)).
    + by apply bool_decide_eq_true_2.
    + by apply bool_decide_eq_true in Hok.
  - rewrite list_lookup_insert_ne in Hi by done. by apply Hok.
Qed.

(** [play_move] keeps a board well formed, whatever the point. *)
Lemma play_move_wf (b b' : SimpleGoBoard) (m : move) (c : color) (r : bool) :
  wf_board b -> play_move b m c = Ok (r, b') -> wf_board b'.
Proof.
  intros Hwf Hplay.
  destruct (is_black_white c) eqn:Hc; [|by unfold play_move in Hplay; rewrite Hc in Hplay].
  destruct m as [|p].
  { unfold play_move in Hplay. rewrite Hc in Hplay. simpl in Hplay.
    injection Hplay as _ <-. by destruct Hwf. }
  destruct (getitem (board b) p) as [v|] eqn:Hv;
    [|by unfold play_move in Hplay; rewrite Hc, Hv in Hplay].
  destruct (decide (v = EMPTY)) as [->|Hne].
  - destruct (getitem_setitem _ _ _ c Hv) as (k & Hk & Hlook & _).
    rewrite (play_move_empty b p c k Hc Hk Hlook) in Hplay.
    injection Hplay as _ <-.
    pose proof check_axis_fields as F.
    destruct Hwf as [H1 H2 H3 H4 H5 H6].
    constructor; simpl.
    + by rewrite !(proj1 (proj2 (F _ _ _ _))).
    + by rewrite !(proj1 (proj2 (proj2 (F _ _ _ _)))), !(proj1 (proj2 (F _ _ _ _))).
    + by rewrite !(proj1 (proj2 (proj2 (proj2 (F _ _ _ _))))).
    + by rewrite !(proj1 (proj2 (proj2 (proj2 (proj2 (F _ _ _ _)))))),
         !(proj1 (proj2 (F _ _ _ _))).
    + rewrite !(proj1 (proj2 (proj2 (proj2 (proj2 (F _ _ _ _)))))),
         !(proj1 (F _ _ _ _)). simpl. by rewrite len_insert.
    + rewrite !(proj1 (proj2 (F _ _ _ _))), !(proj1 (F _ _ _ _)). simpl.
      apply cells_ok_insert; [done|done|]. by destruct c.
  - rewrite (play_move_reject b p c v Hc Hv Hne) in Hplay.
    by injection Hplay as _ <-.
Qed.

(** ** The winner *)

(** On a well-formed board the cells that the scan counts are the stones:
    address 0, which the scan leaves out, is a border cell. *)
Lemma counted_stone_at (b : SimpleGoBoard) (c : color) (i : Z) :
  wf_board b -> is_black_white c = true ->
  counted (board b) c i <-> stone_at (board b) c i.
Proof.
  intros Hwf Hc. unfold counted, stone_at. split.
  - intros [Hr Hv]. split; [lia|done].
  - intros [Hi Hv]. split; [|done].
    pose proof (lookup_lt_Some _ _ _ Hv) as Hlt. unfold len.
    destruct (decide (i = 0)) as [->|]; [|lia].
    change (Z.to_nat 0) with 0%nat in Hv.
    rewrite (wf_cell_zero b Hwf) in Hv. injection Hv as <-. done.
Qed.

Lemma axis_count_line (b : SimpleGoBoard) (c : color) (p step : Z) :
  wf_board b -> is_black_white c = true ->
  stone_at (board b) c p ->
  axis_count (board b) c p step >= 5 <-> in_line_of_five (board b) c p step.
Proof.
  intros Hwf Hc Hp. rewrite axis_count_five by (by apply counted_stone_at).
  unfold in_line_of_five. split; intros (k & Hk & Hall); exists k; (split; [done|]);
    intros j Hj; apply (counted_stone_at b c _ Hwf Hc); by apply Hall.
Qed.

Lemma orb4_decide (P1 P2 P3 P4 : Prop)
    `{!Decision P1, !Decision P2, !Decision P3, !Decision P4} :
  bool_decide P1 || bool_decide P2 || bool_decide P3 || bool_decide P4 = true
  <-> P1 \/ P2 \/ P3 \/ P4.
Proof. rewrite !orb_true_iff, !bool_decide_eq_true. tauto. Qed.

(** The winner after four checks in a row. *)
Lemma check_axes_winner (b : SimpleGoBoard) (c : color) (p : Z) :
  let b4 := check_axis (check_axis (check_axis (check_axis b c p 1)
              c p (size b + 1)) c p (size b + 2)) c p (size b) in
  winner b4 =
    if bool_decide (axis_count (board b) c p 1 >= 5) ||
       bool_decide (axis_count (board b) c p (size b + 1) >= 5) ||
       bool_decide (axis_count (board b) c p (size b + 2) >= 5) ||
       bool_decide (axis_count (board b) c p (size b) >= 5)
    then Some c else winner b.
Proof.
  simpl. rewrite !check_axis_winner.
  rewrite !(proj1 (check_axis_fields _ _ _ _)).
  repeat case_bool_decide; done.
Qed.

(** C1: a move of a stone color onto an EMPTY point of a well-formed board
    is accepted and puts the stone there; afterwards winner is the color
    played when the stone lies in five stones of that color in a row along
    one of the four axes (strides 1, size+1, size+2, size), and is what
    it was before when it does not.  For each axis the count, which starts
    at -1 and takes in the point once in each pass, is at least 5 exactly
    when such five stones exist: it is [fwd + bwd - 1] for the numbers
    [fwd] and [bwd] of stones found from the point on in each direction,
    the point included in both. *)
Theorem play_move_winner (b : SimpleGoBoard) (p : Z) (c : color) :
  wf_board b ->
  is_black_white c = true ->
  0 <= p < len (board b) ->
  get_color b p = Ok EMPTY ->
  exists b', play_move b (Point p) c = Ok (true, b') /\
    get_color b' p = Ok c /\
    (five_through b' c p -> winner b' = Some c) /\
    (~ five_through b' c p -> winner b' = winner b) /\
    (forall step,
       axis_count (board b') c p step >= 5 <-> in_line_of_five (board b') c p step) /\
    (forall step, exists fwd bwd, 1 <= fwd <= 5 /\ 1 <= bwd <= 5 /\
       axis_count (board b') c p step = -1 + fwd + bwd /\
       (forall j, - bwd < j < fwd -> stone_at (board b') c (p + j * step)) /\
       (fwd < 5 -> ~ stone_at (board b') c (p + fwd * step)) /\
       (bwd < 5 -> ~ stone_at (board b') c (p - bwd * step))).
Proof.
  intros Hwf Hc Hp Hv. unfold get_color in *.
  apply getitem_in_range in Hv; [|done].
  pose proof (play_move_empty b p c (Z.to_nat p) Hc (np_index_in_range _ _ Hp) Hv) as Hplay.
  eexists. split; [exact Hplay|].
  pose proof (play_move_wf _ _ _ _ _ Hwf Hplay) as Hwf'.
  set (b1 := set_board b (<[Z.to_nat p := c]> (board b))) in *.
  set (b4 := check_axis _ c p (size b)) in *.
  assert (board b4 = board b1) as Hb4.
  { unfold b4. by rewrite !(proj1 (check_axis_fields _ _ _ _)). }
  assert (size b4 = size b) as Hs4.
  { unfold b4. by rewrite !(proj1 (proj2 (check_axis_fields _ _ _ _))). }
  assert (board b1 !! Z.to_nat p = Some c) as Hstone.
  { simpl. apply list_lookup_insert_eq. by apply lookup_lt_Some in Hv. }
  assert (stone_at (board (set_current_player b4 (opponent c))) c p) as Hat.
  { simpl. rewrite Hb4. split; [lia|done]. }
  assert (winner b4 = if bool_decide (axis_count (board b1) c p 1 >= 5) ||
       bool_decide (axis_count (board b1) c p (size b + 1) >= 5) ||
       bool_decide (axis_count (board b1) c p (size b + 2) >= 5) ||
       bool_decide (axis_count (board b1) c p (size b) >= 5)
    then Some c else winner b) as Hw.
  { unfold b4. apply (check_axes_winner b1 c p). }
  assert (forall step, axis_count (board b1) c p step >= 5 <->
                       in_line_of_five (board b1) c p step) as Hline.
  { intros step. rewrite <- Hb4.
    apply (axis_count_line (set_current_player b4 (opponent c)) c p step Hwf' Hc Hat). }
  split; [|split; [|split; [|split]]].
  - simpl. rewrite Hb4. apply getitem_lookup; [lia|done].
  - unfold five_through. simpl. rewrite Hb4, Hs4, Hw, <- !Hline.
    intros Hfive. rewrite (proj2 (orb4_decide _ _ _ _)); [done|exact Hfive].
  - unfold five_through. simpl. rewrite Hb4, Hs4, Hw, <- !Hline.
    intros Hno. destruct (_ || _) eqn:E; [|done].
    exfalso. apply Hno. exact (proj1 (orb4_decide _ _ _ _) E).
  - intros step. simpl. rewrite Hb4. apply Hline.
  - intros step. simpl. rewrite Hb4.
    assert (counted (board b1) c p) as Hcounted.
    { rewrite <- Hb4.
      by apply (counted_stone_at (set_current_player b4 (opponent c)) c p Hwf' Hc). }
    destruct (axis_count_run (board b1) c p step Hcounted)
      as (fwd & bwd & Hf & Hb & Heq & Hall & Hnf & Hnb).
    assert (forall i, counted (board b1) c i <-> stone_at (board b1) c i) as Hcs.
    { intros i. rewrite <- Hb4.
      apply (counted_stone_at (set_current_player b4 (opponent c)) c i Hwf' Hc). }
    exists fwd, bwd. repeat (split; [done|]). split; [|split].
    + intros j Hj. apply Hcs. by apply Hall.
    + intros Hlt. rewrite <- Hcs. by apply Hnf.
    + intros Hlt. rewrite <- Hcs. by apply Hnb.
Qed.

(** ** Construction *)

Lemma init_rows_snoc (sz ns : Z) (rows : list Z) (row : Z) (cells : list color) :
  init_rows sz ns (rows ++ [row]) cells =
  bind (init_rows sz ns rows cells) (fun cells' => init_row sz ns cells' row).
Proof.
  revert cells. induction rows as [|r rows IH]; intros cells; simpl.
  - by destruct (init_row sz ns cells row).
  - destruct (init_row sz ns cells r); simpl; [apply IH|done].
Qed.

Lemma length_empty_row (sz : Z) : 0 <= sz -> length (empty_row sz) = Z.to_nat (sz + 1).
Proof. intros H. unfold empty_row. simpl. rewrite length_replicate. lia. Qed.

Lemma length_rows (sz : Z) (k : nat) :
  0 <= sz ->
  length (concat (replicate k (empty_row sz))) = (k * Z.to_nat (sz + 1))%nat.
Proof.
  intros H. rewrite <- (length_empty_row sz H).
  generalize (empty_row sz) as row. intros row.
  induction k as [|k IH]; simpl; [done|].
  rewrite length_app, IH. lia.
Qed.

Lemma rows_snoc (sz : Z) (k : nat) :
  concat (replicate (S k) (empty_row sz))
  = concat (replicate k (empty_row sz)) ++ empty_row sz.
Proof.
  generalize (empty_row sz) as row. intros row.
  induction k as [|k IH]; simpl in *.
  - by rewrite app_nil_r.
  - rewrite IH at 1. by rewrite app_assoc.
Qed.

Lemma length_layout (sz : Z) (k : nat) :
  2 <= sz -> (Z.of_nat k <= sz) ->
  len (layout sz k) = sz * sz + 3 * (sz + 1).
Proof.
  intros Hsz Hk. unfold len, layout.
  rewrite !length_app, !length_replicate, length_rows by lia. nia.
Qed.

(** Emptying row [k + 1] of the layout with [k] rows gives the layout with
    [k + 1] rows. *)
Lemma init_row_layout (sz : Z) (k : nat) :
  2 <= sz -> Z.of_nat k < sz ->
  init_row sz (sz + 1) (layout sz k) (Z.of_nat (S k)) = Ok (layout sz (S k)).
Proof.
  intros Hsz Hk. unfold init_row, row_start.
  rewrite !bool_decide_eq_true_2 by lia. simpl bind. f_equal.
  set (ns := Z.to_nat (sz + 1)).
  set (mp := Z.to_nat (sz * sz + 3 * (sz + 1))).
  assert (S k * ns + ns + 1 <= mp)%nat as Hroom by (unfold ns, mp; nia).
  unfold setslice. rewrite length_layout by lia.
  assert (slice_bound (sz * sz + 3 * (sz + 1)) (Z.of_nat (S k) * (sz + 1) + 1)
          = (S k * ns + 1)%nat) as ->.
  { unfold slice_bound. rewrite bool_decide_eq_false_2 by nia. unfold ns. nia. }
  assert (slice_bound (sz * sz + 3 * (sz + 1)) (Z.of_nat (S k) * (sz + 1) + 1 + sz)
          = (S k * ns + ns)%nat) as ->.
  { unfold slice_bound. rewrite bool_decide_eq_false_2 by nia. unfold ns. nia. }
  rewrite bool_decide_eq_true_2 by (unfold ns; lia).
  unfold layout. fold ns mp.
  set (hd := replicate ns BORDER ++ concat (replicate k (empty_row sz))).
  assert (length hd = (S k * ns)%nat) as Hhd.
  { unfold hd. rewrite length_app, length_replicate, length_rows by lia. fold ns. lia. }
  rewrite rows_snoc.
  replace (replicate ns BORDER ++ (concat (replicate k (empty_row sz)) ++ empty_row sz)
           ++ replicate (mp - S (S k) * ns) BORDER)
    with (hd ++ empty_row sz ++ replicate (mp - S (S k) * ns) BORDER)
    by (unfold hd; by rewrite <- !app_assoc).
  replace (replicate ns BORDER ++ concat (replicate k (empty_row sz))
           ++ replicate (mp - S k * ns) BORDER)
    with (hd ++ replicate (mp - S k * ns) BORDER)
    by (unfold hd; by rewrite <- !app_assoc).
  rewrite take_app_ge, drop_app_ge by lia. rewrite Hhd.
  rewrite take_replicate, drop_replicate.
  replace ((S k * ns + 1 - S k * ns) `min` (mp - S k * ns))%nat with 1%nat by lia.
  replace (S k * ns + ns - (S k * ns + 1))%nat with (Z.to_nat sz) by (unfold ns; lia).
  replace (mp - S k * ns - (S k * ns + ns - S k * ns))%nat
    with (mp - S (S k) * ns)%nat by lia.
  by rewrite <- app_assoc.
Qed.

Lemma layout_zero (sz : Z) :
  2 <= sz -> layout sz 0 = replicate (Z.to_nat (sz * sz + 3 * (sz + 1))) BORDER.
Proof.
  intros Hsz. unfold layout. simpl concat. rewrite app_nil_l, <- replicate_add.
  f_equal. nia.
Qed.

(** The loop over the first [k] rows turns the array of border cells into
    the layout with [k] rows, and raises nothing. *)
Lemma init_rows_layout (sz : Z) (k : nat) :
  2 <= sz -> Z.of_nat k <= sz ->
  init_rows sz (sz + 1) (seqZ 1 (Z.of_nat k)) (layout sz 0) = Ok (layout sz k).
Proof.
  intros Hsz. induction k as [|k IH]; intros Hk; [done|].
  rewrite seqZ_S, init_rows_snoc, IH by lia. simpl bind.
  replace (1 + Z.of_nat k) with (Z.of_nat (S k)) by lia.
  apply init_row_layout; lia.
Qed.

Lemma reset_layout (sz : Z) :
  2 <= sz ->
  reset sz = Ok (mkBoard sz (sz + 1) 1 None BLACK (sz * sz + 3 * (sz + 1))
                         (layout sz (Z.to_nat sz)) None).
Proof.
  intros Hsz. unfold reset, _initialize_empty_points.
  rewrite <- layout_zero by done.
  replace sz with (Z.of_nat (Z.to_nat sz)) at 3 by lia.
  rewrite init_rows_layout by lia. done.
Qed.

Lemma count_color_app (c : color) (l1 l2 : list color) :
  count_color c (l1 ++ l2) = (count_color c l1 + count_color c l2)%nat.
Proof. unfold count_color. by rewrite filter_app, length_app. Qed.

Lemma count_color_replicate (c v : color) (n : nat) :
  count_color c (replicate n v) = if decide (v = c) then n else 0%nat.
Proof.
  unfold count_color. induction n as [|n IH]; simpl.
  - by destruct (decide (v = c)).
  - rewrite filter_cons. destruct (decide (v = c)); simpl; by rewrite IH.
Qed.

Lemma count_color_rows (c : color) (row : list color) (k : nat) :
  count_color c (concat (replicate k row)) = (k * count_color c row)%nat.
Proof.
  induction k as [|k IH]; simpl; [done|]. by rewrite count_color_app, IH.
Qed.

Lemma count_color_empty_row (c : color) (sz : Z) :
  count_color c (empty_row sz) =
    match c with
    | EMPTY => Z.to_nat sz
    | BORDER => 1%nat
    | _ => 0%nat
    end.
Proof.
  unfold empty_row.
  change (BORDER :: replicate (Z.to_nat sz) EMPTY)
    with ([BORDER] ++ replicate (Z.to_nat sz) EMPTY).
  rewrite count_color_app, count_color_replicate.
  destruct c; simpl; try done; unfold count_color; simpl; lia.
Qed.

Lemma count_color_layout (c : color) (sz : Z) :
  2 <= sz ->
  Z.of_nat (count_color c (layout sz (Z.to_nat sz))) =
    match c with
    | EMPTY => sz * sz
    | BORDER => 3 * (sz + 1)
    | _ => 0
    end.
Proof.
  intros Hsz. unfold layout.
  rewrite !count_color_app, count_color_rows, !count_color_replicate,
    count_color_empty_row.
  destruct c; simpl; nia.
Qed.

(** The cell [r] of row [q] of [k] rows laid end to end. *)
Lemma rows_lookup {A : Type} (row : list A) (k q r : nat) :
  (q < k)%nat -> (r < length row)%nat ->
  concat (replicate k row) !! (q * length row + r)%nat = row !! r.
Proof.
  revert q. induction k as [|k IH]; intros q Hq Hr; [lia|]. simpl.
  destruct q as [|q].
  - simpl. by rewrite lookup_app_l.
  - rewrite lookup_app_r by lia.
    replace (S q * length row + r - length row)%nat with (q * length row + r)%nat by lia.
    apply IH; lia.
Qed.

Lemma on_board_coord (sz row col : Z) :
  0 <= col <= sz ->
  on_board sz (coord_to_point row col sz)
  = bool_decide (1 <= row <= sz) && bool_decide (1 <= col <= sz).
Proof.
  intros Hcol. unfold on_board, coord_to_point.
  rewrite <- (Z.div_unique (row * (sz + 1) + col) (sz + 1) row col) by lia.
  rewrite <- (Z.mod_unique (row * (sz + 1) + col) (sz + 1) row col) by lia.
  done.
Qed.

(** The addresses of the playable grid are the ones [pt] gives to the rows
    and columns from 1 to the size. *)
Lemma on_board_iff (sz p : Z) :
  0 <= sz ->
  on_board sz p = true <->
  exists row col, 1 <= row <= sz /\ 1 <= col <= sz /\ p = coord_to_point row col sz.
Proof.
  intros Hsz. split.
  - unfold on_board. rewrite andb_true_iff, !bool_decide_eq_true.
    intros [Hrow Hcol]. exists (p / (sz + 1)), (p mod (sz + 1)).
    split; [done|]. split; [done|]. unfold coord_to_point.
    pose proof (Z.div_mod p (sz + 1)). lia.
  - intros (row & col & Hrow & Hcol & ->).
    rewrite on_board_coord by lia.
    by rewrite !bool_decide_eq_true_2.
Qed.

(** Every cell of the full layout is EMPTY on the playable grid and BORDER
    off it. *)
Lemma layout_lookup (sz : Z) (i : nat) (v : color) :
  2 <= sz ->
  layout sz (Z.to_nat sz) !! i = Some v ->
  v = if on_board sz (Z.of_nat i) then EMPTY else BORDER.
Proof.
  intros Hsz. unfold layout.
  set (ns := Z.to_nat (sz + 1)).
  assert (length (empty_row sz) = ns) as Hrow by (apply length_empty_row; lia).
  destruct (decide (i < ns)%nat) as [Hlo|Hlo].
  { rewrite lookup_app_l by (by rewrite length_replicate).
    intros [-> _]%lookup_replicate.
    replace (on_board sz (Z.of_nat i)) with false; [done|].
    symmetry. unfold on_board. rewrite Z.div_small by (unfold ns in Hlo; lia).
    rewrite bool_decide_eq_false_2; [done|lia]. }
  rewrite lookup_app_r by (rewrite length_replicate; lia).
  rewrite length_replicate.
  destruct (decide (i - ns < Z.to_nat sz * ns)%nat) as [Hmid|Hhi].
  - rewrite lookup_app_l by (rewrite length_rows by lia; by fold ns).
    pose proof (Nat.div_mod_eq (i - ns) ns) as Hdm.
    assert ((i - ns) `mod` ns < ns)%nat as Hr by (apply Nat.mod_upper_bound; unfold ns; lia).
    assert ((i - ns) `div` ns < Z.to_nat sz)%nat as Hq.
    { apply Nat.Div0.div_lt_upper_bound. lia. }
    set (q := ((i - ns) `div` ns)%nat) in *. set (r := ((i - ns) `mod` ns)%nat) in *.
    clearbody q r.
    replace (i - ns)%nat with (q * length (empty_row sz) + r)%nat by (rewrite Hrow; lia).
    rewrite rows_lookup by (done || lia).
    replace (Z.of_nat i) with (coord_to_point (Z.of_nat q + 1) (Z.of_nat r) sz)
      by (unfold coord_to_point, ns in *; nia).
    rewrite on_board_coord by (unfold ns in Hr; lia).
    rewrite (bool_decide_eq_true_2 (1 <= Z.of_nat q + 1 <= sz)) by lia. simpl.
    unfold empty_row. destruct r as [|r'].
    + simpl. by intros [= <-].
    + simpl. intros [-> _]%lookup_replicate.
      rewrite bool_decide_eq_true_2; [done|unfold ns in Hr; lia].
  - rewrite lookup_app_r by (rewrite length_rows by lia; fold ns; lia).
    intros [-> _]%lookup_replicate.
    replace (on_board sz (Z.of_nat i)) with false; [done|].
    symmetry. unfold on_board.
    assert (sz + 1 <= Z.of_nat i / (sz + 1)).
    { apply Z.div_le_lower_bound; [lia|]. unfold ns in *. nia. }
    rewrite bool_decide_eq_false_2; [done|lia].
Qed.

(** What [__init__] builds is a well-formed board. *)
Lemma init_wf (MAXSIZE sz : Z) (b : SimpleGoBoard) :
  init MAXSIZE sz = Ok b -> wf_board b.
Proof.
  unfold init. case_bool_decide as Hsz; [|done]. simpl.
  rewrite reset_layout by lia. intros [= <-].
  constructor; simpl; try lia.
  - apply length_layout; lia.
  - apply cells_ok_lookup. intros i v Hv.
    apply layout_lookup in Hv; [|lia]. subst v. unfold cell_ok.
    by destruct (on_board sz (Z.of_nat i)).
Qed.

Lemma layout_get (sz i : Z) :
  2 <= sz -> 0 <= i < sz * sz + 3 * (sz + 1) ->
  getitem (layout sz (Z.to_nat sz)) i
  = Ok (if on_board sz i then EMPTY else BORDER).
Proof.
  intros Hsz Hi.
  assert (0 <= i < len (layout sz (Z.to_nat sz))) as Hr by (rewrite length_layout; lia).
  destruct (lookup_in_range _ i Hr) as [v Hv].
  apply getitem_in_range; [done|]. rewrite Hv. f_equal.
  apply layout_lookup in Hv; [|done]. by rewrite Z2Nat.id in Hv by lia.
Qed.

(** C6: for a size from 2 to MAXSIZE, [__init__] builds a board whose
    array has length size * size + 3 * (size + 1); exactly size * size of
    its cells are EMPTY, namely the [size] cells from [row_start] on of
    each row from 1 to size; all other cells are BORDER; no cell is
    BLACK or WHITE; current_player is BLACK, winner and ko_recapture are
    unset.  For any other size the construction fails on its assertion. *)
Theorem init_fresh (MAXSIZE sz : Z) :
  (2 <= sz <= MAXSIZE ->
   exists b, init MAXSIZE sz = Ok b /\
     size b = sz /\
     len (board b) = sz * sz + 3 * (sz + 1) /\
     Z.of_nat (count_color EMPTY (board b)) = sz * sz /\
     Z.of_nat (count_color BORDER (board b)) = 3 * (sz + 1) /\
     count_color BLACK (board b) = 0%nat /\
     count_color WHITE (board b) = 0%nat /\
     (forall row col, 1 <= row <= sz -> 0 <= col < sz ->
        row_start (size b) (NS b) row = Ok (row * (sz + 1) + 1) /\
        get_color b (row * (sz + 1) + 1 + col) = Ok EMPTY) /\
     (forall i, 0 <= i < len (board b) ->
        (forall row col, 1 <= row <= sz -> 0 <= col < sz ->
                         i <> row * (sz + 1) + 1 + col) ->
        get_color b i = Ok BORDER) /\
     current_player b = BLACK /\
     winner b = None /\
     ko_recapture b = None) /\
  (~ 2 <= sz <= MAXSIZE -> init MAXSIZE sz = Raise AssertionError).
Proof.
  split.
  - intros Hsz. eexists. split.
    { unfold init. rewrite bool_decide_eq_true_2 by done. simpl.
      apply reset_layout. lia. }
    simpl. split; [done|]. split; [apply length_layout; lia|].
    split; [apply (count_color_layout EMPTY); lia|].
    split; [apply (count_color_layout BORDER); lia|].
    split; [pose proof (count_color_layout BLACK sz); lia|].
    split; [pose proof (count_color_layout WHITE sz); lia|].
    split; [|split; [|done]].
    + intros row col Hrow Hcol. split.
      * unfold row_start. by rewrite !bool_decide_eq_true_2 by lia.
      * unfold get_color. simpl. rewrite layout_get by nia.
        replace (row * (sz + 1) + 1 + col) with (coord_to_point row (1 + col) sz)
          by (unfold coord_to_point; lia).
        rewrite on_board_coord by lia. by rewrite !bool_decide_eq_true_2 by lia.
    + intros i Hi Hoff. unfold get_color. simpl.
      rewrite length_layout in Hi by lia. rewrite layout_get by lia.
      destruct (on_board sz i) eqn:Hon; [|done].
      apply on_board_iff in Hon; [|lia].
      destruct Hon as (row & col & Hrow & Hcol & ->).
      exfalso. apply (Hoff row (col - 1)); try lia. unfold coord_to_point. lia.
  - intros Hsz. unfold init. by rewrite bool_decide_eq_false_2.
Qed.

Lemma init_fresh_witness :
  exists b, init 25 5 = Ok b /\ size b = 5 /\ len (board b) = 43 /\
    Z.of_nat (count_color EMPTY (board b)) = 25.
Proof.
  destruct (proj1 (init_fresh 25 5)) as (b & Hb & Hs & Hl & Hc & _); [lia|].
  exists b. repeat split; assumption.
Defined.

(** ** Examples of the win scan *)

Lemma four_in_a_row_no_winner :
  exists b', play_move (with_stones empty5 BLACK [19; 20; 21]) (Point 22) BLACK = Ok (true, b')
    /\ winner b' = None.
Proof. eexists. split; reflexivity. Qed.

Lemma five_in_a_row_wins :
  exists b', play_move (with_stones empty5 BLACK [19; 20; 22; 23]) (Point 21) BLACK = Ok (true, b')
    /\ winner b' = Some BLACK.
Proof. eexists. split; reflexivity. Qed.

Lemma five_in_a_column_wins :
  exists b', play_move (with_stones empty5 WHITE [9; 15; 21; 27]) (Point 33) WHITE = Ok (true, b')
    /\ winner b' = Some WHITE.
Proof. eexists. split; reflexivity. Qed.

Lemma five_on_a_diagonal_wins :
  exists b', play_move (with_stones empty5 BLACK [7; 14; 21; 28]) (Point 35) BLACK = Ok (true, b')
    /\ winner b' = Some BLACK.
Proof. eexists. split; reflexivity. Qed.

Lemma five_on_the_other_diagonal_wins :
  exists b', play_move (with_stones empty5 BLACK [11; 16; 26; 31]) (Point 21) BLACK = Ok (true, b')
    /\ winner b' = Some BLACK.
Proof. eexists. split; reflexivity. Qed.

Lemma empty5_wf : wf_board empty5.
Proof. constructor; by vm_compute. Qed.

Lemma play_move_winner_witness :
  exists b', play_move (with_stones empty5 BLACK [19; 20; 21; 22]) (Point 23) BLACK = Ok (true, b')
    /\ get_color b' 23 = Ok BLACK
    /\ (five_through b' BLACK 23 -> winner b' = Some BLACK).
Proof.
  destruct (play_move_winner (with_stones empty5 BLACK [19; 20; 21; 22]) 23 BLACK)
    as (b' & Hplay & Hget & Hwin & _).
  - constructor; by vm_compute.
  - reflexivity.
  - by vm_compute.
  - reflexivity.
  - exists b'. repeat split; assumption.
Defined.

(** ** Neighbours *)

(** A neighbour of a playable point, straight or diagonal, is an address
    of the array, and off the playable grid its cell is BORDER. *)
Lemma neighbor_read (b : SimpleGoBoard) (row col n : Z) :
  wf_board b ->
  1 <= row <= size b -> 1 <= col <= size b ->
  n ∈ _neighbors b (pt b row col) ++ _diag_neighbors b (pt b row col) ->
  0 <= n < size b * size b + 3 * (size b + 1) /\
  exists v, getitem (board b) n = Ok v /\
            (on_board (size b) n = true \/ v = BORDER).
Proof.
  intros Hwf Hrow Hcol Hn.
  pose proof (wf_size b Hwf) as Hs. pose proof (wf_NS b Hwf) as HNS.
  assert (0 <= n < size b * size b + 3 * (size b + 1)) as Hr.
  { unfold _neighbors, _diag_neighbors, pt, coord_to_point in Hn. rewrite HNS in Hn.
    simpl in Hn. rewrite !elem_of_cons in Hn. rewrite elem_of_nil in Hn.
    destruct Hn as [->|[->|[->|[->|[->|[->|[->|[->|[]]]]]]]]]; nia. }
  split; [done|].
  assert (0 <= n < len (board b)) as Hlen
    by (rewrite (wf_len b Hwf), (wf_maxpoint b Hwf); lia).
  destruct (lookup_in_range _ n Hlen) as [v Hv].
  exists v. split; [by apply getitem_in_range|].
  destruct (on_board (size b) n) eqn:Hon; [by left|right].
  apply (wf_border b (Z.to_nat n) v Hwf Hv). by rewrite Z2Nat.id by lia.
Qed.

(** C7: on a well-formed board of size s, the eight neighbour addresses of
    a playable point p = row * (s + 1) + col, which are p - 1, p + 1,
    p - (s + 1), p + (s + 1) and p - (s + 1) - 1, p - (s + 1) + 1,
    p + (s + 1) - 1, p + (s + 1) + 1, all lie from 0 up to but not
    including s * s + 3 * (s + 1), the length of the array; reading one
    raises nothing and gives the marker of a playable cell or BORDER. *)
Theorem neighbors_in_range (b : SimpleGoBoard) (row col : Z) :
  wf_board b ->
  1 <= row <= size b -> 1 <= col <= size b ->
  let s := size b in
  let p := row * (s + 1) + col in
  pt b row col = p /\
  _neighbors b p = [p - 1; p + 1; p - (s + 1); p + (s + 1)] /\
  _diag_neighbors b p
    = [p - (s + 1) - 1; p - (s + 1) + 1; p + (s + 1) - 1; p + (s + 1) + 1] /\
  len (board b) = s * s + 3 * (s + 1) /\
  forall n, n ∈ _neighbors b p ++ _diag_neighbors b p ->
    0 <= n < s * s + 3 * (s + 1) /\
    exists v, get_color b n = Ok v /\ (on_board s n = true \/ v = BORDER).
Proof.
  intros Hwf Hrow Hcol s p.
  split; [done|]. unfold _neighbors, _diag_neighbors.
  rewrite (wf_NS b Hwf). split; [done|]. split; [done|].
  split; [by rewrite (wf_len b Hwf), (wf_maxpoint b Hwf)|].
  intros n Hn. apply (neighbor_read b row col n Hwf Hrow Hcol).
  unfold _neighbors, _diag_neighbors. by rewrite (wf_NS b Hwf).
Qed.

Lemma neighbors_in_range_witness :
  0 <= 0 < 43 /\
  exists v, get_color empty5 0 = Ok v /\ (on_board 5 0 = true \/ v = BORDER).
Proof.
  destruct (neighbors_in_range empty5 1 1) as (_ & _ & _ & _ & Hall).
  - constructor; by vm_compute.
  - by vm_compute.
  - by vm_compute.
  - apply (Hall 0). apply list_elem_of_In. vm_compute. tauto.
Defined.

(** ** Eye detection *)

Lemma surrounded_loop_spec (cells : list color) (c : color) (ns : list Z)
    (vs : list color) :
  Forall2 (fun n v => getitem cells n = Ok v) ns vs ->
  surrounded_loop cells c ns
  = Ok (bool_decide (Forall (fun v => v = BORDER \/ v = c) vs)).
Proof.
  induction 1 as [|n v ns vs Hn _ IH]; cbn [surrounded_loop].
  - reflexivity.
  - rewrite Hn. cbn [bind]. rewrite IH.
    destruct (decide (v = BORDER)) as [->|Hb].
    + rewrite (bool_decide_eq_false_2 (BORDER <> BORDER)) by (by intros H).
      cbn [andb]. f_equal. apply bool_decide_ext. rewrite Forall_cons. intuition congruence.
    + rewrite (bool_decide_eq_true_2 (v <> BORDER)) by done. cbn [andb].
      destruct (decide (v = c)) as [->|Hc].
      * rewrite (bool_decide_eq_false_2 (c <> c)) by (by intros H).
        f_equal. apply bool_decide_ext. rewrite Forall_cons. intuition congruence.
      * rewrite (bool_decide_eq_true_2 (v <> c)) by done. f_equal.
        symmetry. apply bool_decide_eq_false_2. rewrite Forall_cons. intuition congruence.
Qed.

Lemma diag_loop_spec (cells : list color) (opp : color) (ds : list Z)
    (vs : list color) :
  opp <> BORDER ->
  Forall2 (fun n v => getitem cells n = Ok v) ds vs ->
  forall false_count at_edge,
  diag_loop cells opp ds false_count at_edge
  = Ok (false_count + Z.of_nat (count_color opp vs),
        if bool_decide (BORDER ∈ vs) then 1 else at_edge).
Proof.
  intros Hopp. induction 1 as [|n v ns vs Hn _ IH]; intros fc ae; cbn [diag_loop].
  - rewrite (bool_decide_eq_false_2 (BORDER ∈ [])) by apply not_elem_of_nil.
    unfold count_color. rewrite filter_nil. cbn [length]. do 2 f_equal. lia.
  - rewrite Hn. cbn [bind]. unfold count_color in *. rewrite filter_cons.
    destruct (decide (v = BORDER)) as [->|Hb].
    + rewrite (bool_decide_eq_true_2 (BORDER = BORDER)) by done.
      rewrite IH. destruct (decide (BORDER = opp)) as [<-|_]; [done|].
      rewrite (bool_decide_eq_true_2 (BORDER ∈ BORDER :: vs)) by apply list_elem_of_here.
      by destruct (bool_decide (BORDER ∈ vs)).
    + rewrite (bool_decide_eq_false_2 (v = BORDER)) by done.
      assert (bool_decide (BORDER ∈ v :: vs) = bool_decide (BORDER ∈ vs)) as ->.
      { apply bool_decide_ext. rewrite elem_of_cons. intuition congruence. }
      destruct (decide (v = opp)) as [->|Ho].
      * rewrite (bool_decide_eq_true_2 (opp = opp)) by done. rewrite IH.
        cbn [length]. do 2 f_equal. lia.
      * rewrite (bool_decide_eq_false_2 (v = opp)) by done. by rewrite IH.
Qed.

(** [is_eye] sees the board through the stride and the eight cells around
    the point only. *)
Lemma is_eye_frame (b1 b2 : SimpleGoBoard) (p : Z) (c : color) :
  NS b2 = NS b1 ->
  (forall n, n ∈ _neighbors b1 p ++ _diag_neighbors b1 p ->
             getitem (board b2) n = getitem (board b1) n) ->
  is_eye b2 p c = is_eye b1 p c.
Proof.
  intros HNS Hsame. unfold is_eye, _is_surrounded, _neighbors, _diag_neighbors in *.
  rewrite HNS. simpl in *.
  rewrite !(Hsame (p - 1)), !(Hsame (p + 1)), !(Hsame (p - NS b1)),
    !(Hsame (p + NS b1)), !(Hsame (p - NS b1 - 1)), !(Hsame (p - NS b1 + 1)),
    !(Hsame (p + NS b1 - 1)), !(Hsame (p + NS b1 + 1))
    by (rewrite !elem_of_cons; tauto).
  done.
Qed.

(** C8: for a playable point p = row * (s + 1) + col of a well-formed
    board of size s and a stone color c, let n1..n4 be the markers read at
    the four neighbours p - 1, p + 1, p - (s + 1), p + (s + 1) and d1..d4
    those read at the four diagonal neighbours p - (s + 1) - 1,
    p - (s + 1) + 1, p + (s + 1) - 1, p + (s + 1) + 1.  All eight reads
    raise nothing, and [is_eye] returns true exactly when every one of
    n1..n4 is BORDER or c and the number of d1..d4 equal to the opponent
    of c is at most 1 - at_edge, where at_edge is 1 when one of d1..d4 is
    BORDER and 0 otherwise.  A board with the same stride and the same
    markers on these eight addresses gets the same answer: nothing else
    is read. *)
Theorem is_eye_spec (b : SimpleGoBoard) (row col : Z) (c : color) :
  wf_board b ->
  is_black_white c = true ->
  1 <= row <= size b -> 1 <= col <= size b ->
  let s := size b in
  let p := row * (s + 1) + col in
  pt b row col = p /\
  exists n1 n2 n3 n4 d1 d2 d3 d4,
    get_color b (p - 1) = Ok n1 /\
    get_color b (p + 1) = Ok n2 /\
    get_color b (p - (s + 1)) = Ok n3 /\
    get_color b (p + (s + 1)) = Ok n4 /\
    get_color b (p - (s + 1) - 1) = Ok d1 /\
    get_color b (p - (s + 1) + 1) = Ok d2 /\
    get_color b (p + (s + 1) - 1) = Ok d3 /\
    get_color b (p + (s + 1) + 1) = Ok d4 /\
    (exists r, is_eye b p c = Ok r /\
       (r = true <-> eye_shape c [n1; n2; n3; n4] [d1; d2; d3; d4])) /\
    (forall b2, NS b2 = NS b ->
       (forall n,
          n ∈ [p - 1; p + 1; p - (s + 1); p + (s + 1);
               p - (s + 1) - 1; p - (s + 1) + 1; p + (s + 1) - 1; p + (s + 1) + 1] ->
          get_color b2 n = get_color b n) ->
       is_eye b2 p c = is_eye b p c).
Proof.
  intros Hwf Hc Hrow Hcol s p. split; [done|].
  pose proof (wf_NS b Hwf) as HNS. fold s in HNS.
  assert (forall n,
            n ∈ [p - 1; p + 1; p - (s + 1); p + (s + 1);
                 p - (s + 1) - 1; p - (s + 1) + 1; p + (s + 1) - 1; p + (s + 1) + 1] ->
            exists v, getitem (board b) n = Ok v) as Hread.
  { intros n Hn.
    destruct (neighbor_read b row col n Hwf Hrow Hcol) as (_ & v & Hv & _); [|eauto].
    unfold _neighbors, _diag_neighbors. rewrite HNS. exact Hn. }
  destruct (Hread (p - 1)) as [n1 Hn1]; [rewrite !elem_of_cons; tauto|].
  destruct (Hread (p + 1)) as [n2 Hn2]; [rewrite !elem_of_cons; tauto|].
  destruct (Hread (p - (s + 1))) as [n3 Hn3]; [rewrite !elem_of_cons; tauto|].
  destruct (Hread (p + (s + 1))) as [n4 Hn4]; [rewrite !elem_of_cons; tauto|].
  destruct (Hread (p - (s + 1) - 1)) as [d1 Hd1]; [rewrite !elem_of_cons; tauto|].
  destruct (Hread (p - (s + 1) + 1)) as [d2 Hd2]; [rewrite !elem_of_cons; tauto|].
  destruct (Hread (p + (s + 1) - 1)) as [d3 Hd3]; [rewrite !elem_of_cons; tauto|].
  destruct (Hread (p + (s + 1) + 1)) as [d4 Hd4]; [rewrite !elem_of_cons; tauto|].
  assert (Forall2 (fun n v => getitem (board b) n = Ok v) (_neighbors b p) [n1; n2; n3; n4])
    as Hnbs by (unfold _neighbors; rewrite HNS; repeat constructor; assumption).
  assert (Forall2 (fun n v => getitem (board b) n = Ok v) (_diag_neighbors b p)
            [d1; d2; d3; d4])
    as Hdiags by (unfold _diag_neighbors; rewrite HNS; repeat constructor; assumption).
  exists n1, n2, n3, n4, d1, d2, d3, d4. unfold get_color.
  do 8 (split; [assumption|]). split.
  - assert (opponent c <> BORDER) as Hopp by (by destruct c).
    unfold is_eye, _is_surrounded.
    rewrite (surrounded_loop_spec _ c _ _ Hnbs). cbn [bind].
    rewrite (diag_loop_spec _ _ _ _ Hopp Hdiags 0 0). cbn [bind].
    unfold eye_shape.
    destruct (decide (Forall (fun v => v = BORDER \/ v = c) [n1; n2; n3; n4]))
      as [Hsur|Hsur].
    + rewrite (bool_decide_eq_true_2 _ Hsur). cbn [negb].
      eexists. split; [reflexivity|].
      rewrite bool_decide_eq_true. rewrite Z.add_0_l.
      destruct (bool_decide (BORDER ∈ [d1; d2; d3; d4])); tauto.
    + rewrite (bool_decide_eq_false_2 _ Hsur). cbn [negb].
      exists false. split; [reflexivity|]. split; [done|tauto].
  - intros b2 HNS2 Hsame. apply is_eye_frame; [done|].
    intros n Hn. apply Hsame.
    unfold _neighbors, _diag_neighbors in Hn. rewrite HNS in Hn. exact Hn.
Qed.

(** The corner point 7 of the board of side 5, with black stones on its
    two neighbours 8 and 13 and a white stone on its diagonal neighbour
    14: the three other diagonal neighbours are border cells, so the one
    opponent diagonal is one too many and the point is no eye for BLACK. *)
Lemma is_eye_spec_witness :
  is_eye (with_stones (with_stones empty5 BLACK [8; 13]) WHITE [14]) 7 BLACK
  = Ok false.
Proof.
  destruct (is_eye_spec (with_stones (with_stones empty5 BLACK [8; 13]) WHITE [14])
              1 1 BLACK)
    as (_ & n1 & n2 & n3 & n4 & d1 & d2 & d3 & d4 &
        H1 & H2 & H3 & H4 & H5 & H6 & H7 & H8 & (r & Hr & Hiff) & _).
  - constructor; by vm_compute.
  - reflexivity.
  - by vm_compute.
  - by vm_compute.
  - vm_compute in H5, H6, H7, H8.
    injection H5 as <-. injection H6 as <-. injection H7 as <-. injection H8 as <-.
    change (1 * (size (with_stones (with_stones empty5 BLACK [8; 13]) WHITE [14]) + 1) + 1)
      with 7 in Hr.
    rewrite Hr. f_equal. destruct r; [|done].
    exfalso. destruct (proj1 Hiff eq_refl) as [_ Hcount].
    by vm_compute in Hcount.
Defined.

(** The cases of the eye test that the specification lists. *)
Lemma eye_corner :
  is_eye (with_stones empty5 BLACK [8; 13]) 7 BLACK = Ok true.
Proof. reflexivity. Qed.

Lemma eye_corner_opponent_diagonal :
  is_eye (with_stones (with_stones empty5 BLACK [8; 13]) WHITE [14]) 7 BLACK = Ok false.
Proof. reflexivity. Qed.

Lemma eye_centre_one_opponent_diagonal :
  is_eye (with_stones (with_stones empty5 BLACK [20; 22; 15; 27]) WHITE [14]) 21 BLACK
  = Ok true.
Proof. reflexivity. Qed.

Lemma eye_centre_two_opponent_diagonals :
  is_eye (with_stones (with_stones empty5 BLACK [20; 22; 15; 27]) WHITE [14; 28]) 21 BLACK
  = Ok false.
Proof. reflexivity. Qed.

Lemma eye_needs_surrounding :
  is_eye (with_stones empty5 BLACK [20; 22; 15]) 21 BLACK = Ok false.
Proof. reflexivity. Qed.

(** ** Boards in a store: copies and trial moves *)

Lemma get_attr_eq {A : Type} (h : heap) (l : loc) (o : GoBoard loc)
    (f : GoBoard loc -> A) :
  objects h !! l = Some o -> get_attr l f h = Some (Ok (f o), h).
Proof. intros H. unfold get_attr. by rewrite H. Qed.

Lemma set_attr_eq (h : heap) (l : loc) (o : GoBoard loc)
    (upd : GoBoard loc -> GoBoard loc) :
  objects h !! l = Some o ->
  set_attr l upd h = Some (Ok tt, mkHeap (<[l := upd o]> (objects h)) (arrays h)).
Proof. intros H. unfold set_attr. by rewrite H. Qed.

Lemma fresh_object (h : heap) (l : loc) (o : GoBoard loc) :
  objects h !! l = Some o -> fresh (dom (objects h)) <> l.
Proof.
  intros H Heq. apply (is_fresh (dom (objects h))). rewrite Heq.
  apply elem_of_dom. eauto.
Qed.

Lemma fresh_array (m : gmap loc (list color)) (a : loc) (cells : list color) :
  m !! a = Some cells -> fresh (dom m) <> a.
Proof.
  intros H Heq. apply (is_fresh (dom m)). rewrite Heq.
  apply elem_of_dom. eauto.
Qed.

Ltac obj_lookup Hself Hne :=
  cbn [objects arrays];
  first [ rewrite lookup_insert_eq; reflexivity
        | rewrite lookup_insert_ne by exact Hne; exact Hself
        | exact Hself ].

Ltac heap_step Hself Hne :=
  first [ erewrite get_attr_eq by obj_lookup Hself Hne
        | erewrite set_attr_eq by obj_lookup Hself Hne ];
  cbv beta iota; cbn [objects arrays]; rewrite ?insert_insert_eq.

Ltac heap_assert :=
  unfold assertH, retH; rewrite bool_decide_eq_true_2 by (cbn; lia);
  cbv beta iota.

(** [copy] on a board of the store with the dimensions of [reset]: the
    store gains one object, at a new reference, whose fields are those of
    [self] and whose array is a new one with the cells of [self.board];
    the array that the constructor had made for it stays behind. *)
Lemma copy_spec (MAXSIZE : Z) (h : heap) (self : loc) (o : GoBoard loc)
    (cells : list color) :
  objects h !! self = Some o ->
  arrays h !! board o = Some cells ->
  wf_board (set_board o cells) ->
  size o <= MAXSIZE ->
  exists cells0,
    let a0 := fresh (dom (arrays h)) in
    let a1 := fresh (dom (<[a0 := cells0]> (arrays h))) in
    let bc := fresh (dom (objects h)) in
    copy MAXSIZE self h =
      Some (Ok bc, mkHeap (<[bc := set_board o a1]> (objects h))
                          (<[a1 := cells]> (<[a0 := cells0]> (arrays h)))).
Proof.
  intros Hself Harr Hwf Hmax.
  destruct Hwf as [Hsz HNS HWE Hmp _ _]. simpl in *.
  exists (layout (size o) (Z.to_nat (size o))). cbv zeta.
  set (a0 := fresh (dom (arrays h))).
  set (arrs := <[a0 := layout (size o) (Z.to_nat (size o))]> (arrays h)).
  set (a1 := fresh (dom arrs)).
  set (bc := fresh (dom (objects h))).
  assert (bc <> self) as Hne by (by apply (fresh_object h self o)).
  assert (arrs !! board o = Some cells) as Harr'.
  { unfold arrs. rewrite lookup_insert_ne; [done|]. by apply (fresh_array _ _ cells). }
  unfold copy, bindH.
  heap_step Hself Hne.
  unfold new_board, init. rewrite bool_decide_eq_true_2 by lia. cbn [assert bind].
  rewrite reset_layout by lia.
  unfold bindH, new_array, new_object. cbv beta iota. cbn [objects arrays board].
  fold a0 bc arrs.
  do 2 heap_step Hself Hne.
  do 2 heap_step Hself Hne. heap_assert.
  do 2 heap_step Hself Hne. heap_assert.
  do 2 heap_step Hself Hne.
  do 2 heap_step Hself Hne.
  do 2 heap_step Hself Hne. heap_assert.
  heap_step Hself Hne.
  unfold read_array. cbn [objects arrays]. rewrite Harr'. cbv beta iota.
  cbn [objects arrays]. fold a1.
  heap_step Hself Hne.
  do 3 f_equal. f_equal.
  unfold set_board, set_current_player, set_ko_recapture, set_winner.
  destruct o; cbn in *. by subst.
Qed.

Lemma load_inv (h : heap) (self : loc) (s : SimpleGoBoard) :
  load h self = Some s ->
  exists o cells, objects h !! self = Some o /\ arrays h !! board o = Some cells /\
                  s = set_board o cells.
Proof.
  unfold load. destruct (objects h !! self) as [o|]; [|done].
  destruct (arrays h !! board o) as [cells|] eqn:Hc; [|done].
  intros [= <-]. eauto.
Qed.

(** The whole course of [is_legal]: the copy, the move on the copy, and
    what is left of the store. *)
Lemma is_legal_spec (MAXSIZE : Z) (h : heap) (self : loc)
    (s : SimpleGoBoard) (m : move) (c : color) :
  load h self = Some s ->
  wf_board s ->
  size s <= MAXSIZE ->
  exists res h' bc h1,
    is_legal MAXSIZE self m c h = Some (res, h') /\
    load h' self = Some s /\
    (forall l o, objects h !! l = Some o -> objects h' !! l = Some o) /\
    (forall a cells, arrays h !! a = Some cells -> arrays h' !! a = Some cells) /\
    copy MAXSIZE self h = Some (Ok bc, h1) /\
    bc <> self /\
    load h1 bc = Some s /\
    load h1 self = Some s /\
    (forall o oc, objects h1 !! self = Some o -> objects h1 !! bc = Some oc ->
                  board oc <> board o) /\
    play_move_obj bc m c h1 = Some (res, h') /\
    res = match play_move s m c with
          | Ok (legal, _) => Ok legal
          | Raise e => Raise e
          end.
Proof.
  intros Hload Hwf Hmax.
  destruct (load_inv h self s Hload) as (o & cells & Hself & Harr & ->).
  destruct (copy_spec MAXSIZE h self o cells Hself Harr Hwf Hmax) as [cells0 Hcopy].
  cbv zeta in Hcopy.
  set (a0 := fresh (dom (arrays h))) in *.
  set (arrs := <[a0 := cells0]> (arrays h)) in *.
  set (a1 := fresh (dom arrs)) in *.
  set (bc := fresh (dom (objects h))) in *.
  set (h1 := mkHeap (<[bc := set_board o a1]> (objects h)) (<[a1 := cells]> arrs)) in *.
  assert (bc <> self) as Hne by (by apply (fresh_object h self o)).
  assert (forall l x, objects h !! l = Some x -> bc <> l) as Hfo.
  { intros l x Hl. by apply (fresh_object h l x). }
  assert (forall a x, arrays h !! a = Some x -> a0 <> a) as Hfa0.
  { intros a x Ha. by apply (fresh_array _ a x). }
  assert (forall a x, arrs !! a = Some x -> a1 <> a) as Hfa1.
  { intros a x Ha. by apply (fresh_array _ a x). }
  assert (forall a x, arrays h !! a = Some x -> arrs !! a = Some x) as Harrs.
  { intros a x Ha. unfold arrs. rewrite lookup_insert_ne; [done|]. by apply (Hfa0 a x). }
  assert (objects h1 !! bc = Some (set_board o a1)) as Hbc
    by (cbn; by rewrite lookup_insert_eq).
  assert (arrays h1 !! a1 = Some cells) as Ha1
    by (cbn; by rewrite lookup_insert_eq).
  assert (objects h1 !! self = Some o) as Hself1
    by (cbn; by rewrite lookup_insert_ne).
  assert (arrays h1 !! board o = Some cells) as Harr1.
  { cbn. rewrite lookup_insert_ne; [by apply Harrs|]. apply (Hfa1 _ cells). by apply Harrs. }
  assert (a1 <> board o) as Hnea.
  { apply (Hfa1 _ cells). by apply Harrs. }
  assert (exists res h',
    play_move_obj bc m c h1 = Some (res, h') /\
    res = match play_move (set_board o cells) m c with
          | Ok (legal, _) => Ok legal
          | Raise e => Raise e
          end /\
    (forall l x, objects h1 !! l = Some x -> l <> bc -> objects h' !! l = Some x) /\
    (forall a x, arrays h1 !! a = Some x -> a <> a1 -> arrays h' !! a = Some x))
    as (res & h' & Hplay & Hres & Hobjs & Harrays).
  { assert (forall r, play_move (set_board o cells) m c = r ->
              play_move_obj bc m c h1 =
                match r with
                | Ok (legal, s') =>
                    Some (Ok legal,
                          mkHeap (<[bc := set_board s' a1]> (objects h1))
                                 (<[a1 := board s']> (arrays h1)))
                | Raise e => Some (Raise e, h1)
                end) as Hobj.
    { intros r <-. unfold play_move_obj. rewrite Hbc.
      change (board (set_board o a1)) with a1. rewrite Ha1.
      change (set_board (set_board o a1) cells) with (set_board o cells).
      by destruct (play_move (set_board o cells) m c) as [[legal s']|e]. }
    destruct (play_move (set_board o cells) m c) as [[legal s']|e] eqn:Hpm;
      rewrite (Hobj _ eq_refl).
    - eexists _, _. split; [reflexivity|]. split; [reflexivity|].
      split; intros l x Hl Hn; cbn [objects arrays];
        by rewrite lookup_insert_ne.
    - eexists _, _. split; [reflexivity|]. split; [reflexivity|]. by split. }
  exists res, h', bc, h1.
  split; [|split; [|split; [|split; [|split; [|split; [|split; [|split; [|split; [|split]]]]]]]]].
  - unfold is_legal, bindH. rewrite Hcopy. fold h1. rewrite Hplay.
    by destruct res.
  - unfold load. rewrite (Hobjs self o Hself1) by done.
    by rewrite (Harrays (board o) cells Harr1) by done.
  - intros l x Hl. apply Hobjs.
    + cbn. rewrite lookup_insert_ne; [done|]. by apply (Hfo l x).
    + intros ->. by apply (Hfo bc x).
  - intros a x Ha. apply Harrays.
    + cbn. rewrite lookup_insert_ne; [by apply Harrs|].
      apply (Hfa1 a x). by apply Harrs.
    + intros ->. apply (Hfa1 a1 x); [by apply Harrs|done].
  - exact Hcopy.
  - exact Hne.
  - unfold load. rewrite Hbc. change (board (set_board o a1)) with a1.
    by rewrite Ha1.
  - unfold load. by rewrite Hself1, Harr1.
  - intros o' oc Ho' Hoc. rewrite Hself1 in Ho'. rewrite Hbc in Hoc.
    injection Ho' as <-. injection Hoc as <-. exact Hnea.
  - exact Hplay.
  - exact Hres.
Qed.

(** C4: for a well-formed board [self] of the store with a size up to
    MAXSIZE, any point and any color, [is_legal] ends with the object
    [self] and its array as they were: cells, size, current_player,
    winner and ko_recapture, and so is every other object and array that
    the store held.  Its outcome is the one of [play_move] on the board
    that [copy] makes, a new object with an array of its own and the state
    of [self]: the boolean that [play_move] returns on that state, or the
    exception it raises there. *)
Theorem is_legal_frame (MAXSIZE : Z) (h : heap) (self : loc)
    (s : SimpleGoBoard) (m : move) (c : color) :
  load h self = Some s ->
  wf_board s ->
  size s <= MAXSIZE ->
  exists res h' bc h1,
    is_legal MAXSIZE self m c h = Some (res, h') /\
    load h' self = Some s /\
    (forall l o, objects h !! l = Some o -> objects h' !! l = Some o) /\
    (forall a cells, arrays h !! a = Some cells -> arrays h' !! a = Some cells) /\
    copy MAXSIZE self h = Some (Ok bc, h1) /\
    bc <> self /\
    load h1 bc = Some s /\
    load h1 self = Some s /\
    (forall o oc, objects h1 !! self = Some o -> objects h1 !! bc = Some oc ->
                  board oc <> board o) /\
    play_move_obj bc m c h1 = Some (res, h') /\
    res = match play_move s m c with
          | Ok (legal, _) => Ok legal
          | Raise e => Raise e
          end.
Proof. apply is_legal_spec. Qed.

Lemma is_legal_frame_witness :
  exists res h',
    is_legal 25 1%positive (Point 21) BLACK heap5 = Some (res, h') /\
    load h' 1%positive = Some empty5.
Proof.
  destruct (is_legal_frame 25 heap5 1%positive empty5 (Point 21) BLACK)
    as (res & h' & _ & _ & Hlegal & Hload & _).
  - by vm_compute.
  - constructor; by vm_compute.
  - by vm_compute.
  - exists res, h'. split; assumption.
Defined.

(** ** What [play_move] does not read *)

(** The accepted move in one record: the stone is written, winner becomes
    the color played when one of the four counts reaches 5, the turn goes
    to the opponent, and the other fields stay. *)
Lemma play_move_accept (b : SimpleGoBoard) (p : Z) (c : color) (k : nat) :
  is_black_white c = true ->
  np_index (len (board b)) p = Some k ->
  board b !! k = Some EMPTY ->
  play_move b (Point p) c =
    Ok (true,
        mkBoard (size b) (NS b) (WE b) (ko_recapture b) (opponent c) (maxpoint b)
                (<[k := c]> (board b))
                (if wins (<[k := c]> (board b)) (size b) c p
                 then Some c else winner b)).
Proof.
  intros Hc Hk Hv. rewrite (play_move_empty b p c k Hc Hk Hv).
  do 2 f_equal. unfold set_current_player.
  pose proof check_axis_fields as F.
  rewrite (check_axes_winner (set_board b (<[k := c]> (board b))) c p).
  rewrite !(proj1 (proj2 (F _ _ _ _))).
  rewrite !(proj1 (proj2 (proj2 (F _ _ _ _)))).
  rewrite !(proj1 (proj2 (proj2 (proj2 (F _ _ _ _))))).
  rewrite !(proj1 (proj2 (proj2 (proj2 (proj2 (F _ _ _ _)))))).
  rewrite !(proj1 (proj2 (proj2 (proj2 (proj2 (proj2 (F _ _ _ _))))))).
  rewrite !(proj1 (F _ _ _ _)).
  reflexivity.
Qed.

(** The three ways [play_move] can go on a point. *)
Lemma play_move_cases (b : SimpleGoBoard) (p : Z) (c : color) :
  is_black_white c = true ->
  (exists e, getitem (board b) p = Raise e /\ play_move b (Point p) c = Raise e) \/
  (exists v, getitem (board b) p = Ok v /\ v <> EMPTY /\
             play_move b (Point p) c = Ok (false, b)) \/
  (exists k, getitem (board b) p = Ok EMPTY /\
     np_index (len (board b)) p = Some k /\ board b !! k = Some EMPTY /\
     play_move b (Point p) c =
       Ok (true,
           mkBoard (size b) (NS b) (WE b) (ko_recapture b) (opponent c) (maxpoint b)
                   (<[k := c]> (board b))
                   (if wins (<[k := c]> (board b)) (size b) c p
                    then Some c else winner b))).
Proof.
  intros Hc. destruct (getitem (board b) p) as [v|e] eqn:Hv.
  - destruct (decide (v = EMPTY)) as [->|Hne].
    + right. right. destruct (getitem_setitem _ _ _ c Hv) as (k & Hk & Hlook & _).
      exists k. split; [done|]. split; [done|]. split; [done|].
      by apply play_move_accept.
    + right. left. exists v. split; [done|]. split; [done|].
      by apply (play_move_reject b p c v).
  - left. exists e. split; [done|]. unfold play_move. by rewrite Hc, Hv.
Qed.

Lemma black_has_won_wf : wf_board black_has_won.
Proof. constructor; by vm_compute. Qed.

(** C9: [play_move] does not read winner.  Run on two boards that differ
    in winner only, it returns the same boolean and boards that agree in
    every other field, with winner either set to the color played in both
    or left as it was in both.  A move of a stone color onto an EMPTY
    point is accepted when a winner is already set.  On the board
    [black_has_won], where winner is BLACK, WHITE completes the row
    7..11 and winner becomes WHITE.  A winner that is set is never
    unset. *)
Theorem play_move_ignores_winner :
  (forall (b : SimpleGoBoard) (w : option color) (m : move) (c : color),
     match play_move (set_winner b w) m c, play_move b m c with
     | Ok (r1, b1), Ok (r2, b2) =>
         r1 = r2 /\ set_winner b1 None = set_winner b2 None /\
         ((winner b1 = Some c /\ winner b2 = Some c) \/
          (winner b1 = w /\ winner b2 = winner b))
     | Raise e1, Raise e2 => e1 = e2
     | _, _ => False
     end) /\
  (forall (b : SimpleGoBoard) (w : color) (p : Z) (c : color),
     winner b = Some w -> is_black_white c = true -> get_color b p = Ok EMPTY ->
     exists b', play_move b (Point p) c = Ok (true, b')) /\
  (wf_board black_has_won /\ winner black_has_won = Some BLACK /\
   exists b', play_move black_has_won (Point 11) WHITE = Ok (true, b') /\
              winner b' = Some WHITE) /\
  (forall (b b' : SimpleGoBoard) (m : move) (c : color) (r : bool),
     play_move b m c = Ok (r, b') -> winner b <> None -> winner b' <> None).
Proof.
  split; [|split; [|split]].
  - intros b w m c. destruct (is_black_white c) eqn:Hc.
    2:{ unfold play_move. by rewrite Hc. }
    destruct m as [|p].
    { unfold play_move. rewrite Hc. cbn. split; [done|]. split; [done|]. by right. }
    destruct (play_move_cases (set_winner b w) p c Hc)
      as [(e1 & G1 & ->)|[(v1 & G1 & N1 & ->)|(k1 & G1 & I1 & L1 & ->)]];
    destruct (play_move_cases b p c Hc)
      as [(e2 & G2 & ->)|[(v2 & G2 & N2 & ->)|(k2 & G2 & I2 & L2 & ->)]];
    cbn [board set_winner] in *; try congruence.
    + split; [done|]. split; [done|]. by right.
    + assert (k1 = k2) as -> by congruence.
      split; [done|]. split; [done|]. cbn.
      destruct (wins (<[k2 := c]> (board b)) (size b) c p); [by left|by right].
  - intros b w p c _ Hc Hv. unfold get_color in Hv.
    destruct (getitem_setitem _ _ _ c Hv) as (k & Hk & Hlook & _).
    eexists. by apply (play_move_accept b p c k).
  - split; [apply black_has_won_wf|]. split; [reflexivity|].
    eexists. split; [by vm_compute|reflexivity].
  - intros b b' m c r Hplay Hw.
    destruct (is_black_white c) eqn:Hc.
    2:{ unfold play_move in Hplay. by rewrite Hc in Hplay. }
    destruct m as [|p].
    { unfold play_move in Hplay. rewrite Hc in Hplay. cbn in Hplay.
      by injection Hplay as _ <-. }
    destruct (play_move_cases b p c Hc)
      as [(e2 & G2 & E)|[(v2 & G2 & N2 & E)|(k2 & G2 & I2 & L2 & E)]];
      rewrite E in Hplay; [done| |]; injection Hplay as _ <-; [done|].
    cbn. by destruct (wins _ _ _ _).
Qed.

Lemma play_move_ignores_winner_witness :
  exists b', play_move black_has_won (Point 13) WHITE = Ok (true, b').
Proof.
  apply (proj1 (proj2 play_move_ignores_winner) black_has_won BLACK 13 WHITE);
    by vm_compute.
Defined.

Lemma wf_set_current_player (b : SimpleGoBoard) (cp : color) :
  wf_board b -> wf_board (set_current_player b cp).
Proof. intros [H1 H2 H3 H4 H5 H6]. by constructor. Qed.

(** Two runs of [play_move] on boards that differ in current_player
    only. *)
Lemma play_move_turn_blind (b : SimpleGoBoard) (cp1 cp2 : color) (m : move)
    (c : color) :
  match play_move (set_current_player b cp1) m c,
        play_move (set_current_player b cp2) m c with
  | Ok (r1, b1), Ok (r2, b2) =>
      r1 = r2 /\
      (r1 = true -> b1 = b2 /\ current_player b1 = opponent c) /\
      (r1 = false -> b1 = set_current_player b cp1 /\ b2 = set_current_player b cp2)
  | Raise e1, Raise e2 => e1 = e2
  | _, _ => False
  end.
Proof.
  destruct (is_black_white c) eqn:Hc.
  2:{ unfold play_move. by rewrite Hc. }
  destruct m as [|p].
  { unfold play_move. rewrite Hc. cbn. split; [done|]. by split. }
  destruct (play_move_cases (set_current_player b cp1) p c Hc)
    as [(e1 & G1 & ->)|[(v1 & G1 & N1 & ->)|(k1 & G1 & I1 & L1 & ->)]];
  destruct (play_move_cases (set_current_player b cp2) p c Hc)
    as [(e2 & G2 & ->)|[(v2 & G2 & N2 & ->)|(k2 & G2 & I2 & L2 & ->)]];
  cbn [board set_current_player] in *; try congruence.
  - split; [done|]. by split.
  - assert (k1 = k2) as -> by congruence.
    split; [done|]. split; [|done]. intros _. by split.
Qed.

(** The move of C10's counterexample: the point 21 of the board of side 5
    holds a black stone, and WHITE plays on it, once with BLACK and once
    with WHITE to move.  Both moves are rejected and leave the boards as
    they were, so the boards afterwards are not the same and
    current_player is not the opponent of WHITE in both. *)
Lemma rejected_move_keeps_current_player :
  ~ (exists r b',
       play_move (set_current_player (with_stones empty5 BLACK [21]) BLACK)
                 (Point 21) WHITE = Ok (r, b') /\
       play_move (set_current_player (with_stones empty5 BLACK [21]) WHITE)
                 (Point 21) WHITE = Ok (r, b') /\
       current_player b' = opponent WHITE).
Proof.
  intros (r & b' & H1 & H2 & _).
  vm_compute in H1. vm_compute in H2. congruence.
Qed.

(** C10, amended: [play_move] and [is_legal] do not read current_player.
    On two boards that differ in current_player only, [play_move] returns
    the same boolean or raises the same exception; when the move is
    accepted the two boards afterwards are the same in every field, and
    current_player is the opponent of the color played; when it is
    rejected each board is left as it was.  [is_legal] has the same
    outcome on both.  A color that has just moved can move again. *)
Theorem play_move_ignores_current_player :
  (forall (b : SimpleGoBoard) (cp1 cp2 : color) (m : move) (c : color),
     match play_move (set_current_player b cp1) m c,
           play_move (set_current_player b cp2) m c with
     | Ok (r1, b1), Ok (r2, b2) =>
         r1 = r2 /\
         (r1 = true -> b1 = b2 /\ current_player b1 = opponent c) /\
         (r1 = false ->
            b1 = set_current_player b cp1 /\ b2 = set_current_player b cp2)
     | Raise e1, Raise e2 => e1 = e2
     | _, _ => False
     end) /\
  (forall (MAXSIZE : Z) (h1 h2 : heap) (self : loc) (s : SimpleGoBoard)
          (cp1 cp2 : color) (m : move) (c : color),
     load h1 self = Some (set_current_player s cp1) ->
     load h2 self = Some (set_current_player s cp2) ->
     wf_board s -> size s <= MAXSIZE ->
     exists res h1' h2',
       is_legal MAXSIZE self m c h1 = Some (res, h1') /\
       is_legal MAXSIZE self m c h2 = Some (res, h2')) /\
  (forall (b : SimpleGoBoard) (p q : Z) (c : color),
     is_black_white c = true ->
     0 <= p < len (board b) -> 0 <= q < len (board b) -> p <> q ->
     get_color b p = Ok EMPTY -> get_color b q = Ok EMPTY ->
     exists b1 b2,
       play_move b (Point p) c = Ok (true, b1) /\
       current_player b1 = opponent c /\
       play_move b1 (Point q) c = Ok (true, b2)).
Proof.
  split; [|split].
  - apply play_move_turn_blind.
  - intros MAXSIZE h1 h2 self s cp1 cp2 m c Hl1 Hl2 Hwf Hmax.
    destruct (is_legal_spec MAXSIZE h1 self _ m c Hl1
                (wf_set_current_player s cp1 Hwf) Hmax)
      as (res1 & h1' & _ & _ & E1 & _ & _ & _ & _ & _ & _ & _ & _ & _ & R1).
    destruct (is_legal_spec MAXSIZE h2 self _ m c Hl2
                (wf_set_current_player s cp2 Hwf) Hmax)
      as (res2 & h2' & _ & _ & E2 & _ & _ & _ & _ & _ & _ & _ & _ & _ & R2).
    exists res1, h1', h2'. split; [done|]. rewrite E2. do 2 f_equal.
    rewrite R1, R2. pose proof (play_move_turn_blind s cp1 cp2 m c) as Hb.
    destruct (play_move (set_current_player s cp1) m c) as [[r1 b1]|e1],
             (play_move (set_current_player s cp2) m c) as [[r2 b2]|e2];
      try done.
    + by destruct Hb as [-> _].
    + by subst.
  - intros b p q c Hc Hp Hq Hne Hvp Hvq. unfold get_color in *.
    apply getitem_in_range in Hvp; [|done]. apply getitem_in_range in Hvq; [|done].
    eexists _, _. split.
    { apply (play_move_accept b p c (Z.to_nat p)); [done| |done].
      by apply np_index_in_range. }
    split; [done|].
    eapply (play_move_accept _ q c (Z.to_nat q)); [done| |].
    + cbn. rewrite len_insert. by apply np_index_in_range.
    + cbn. rewrite list_lookup_insert_ne by lia. done.
Qed.

Lemma play_move_ignores_current_player_witness :
  exists b1 b2,
    play_move empty5 (Point 19) BLACK = Ok (true, b1) /\
    current_player b1 = opponent BLACK /\
    play_move b1 (Point 20) BLACK = Ok (true, b2).
Proof.
  apply (proj2 (proj2 play_move_ignores_current_player) empty5 19 20 BLACK);
    by vm_compute.
Defined.

(** * Further properties of the board *)

(** ** Invariants of [play_move] *)

(** X1: whatever the point and the color, a call of [play_move] that
    returns leaves a well-formed board well formed, and never changes
    size, NS, WE, maxpoint, ko_recapture or the length of the array; the
    cells off the playable grid stay BORDER. *)
Theorem play_move_invariant (b b' : SimpleGoBoard) (m : move) (c : color)
    (r : bool) :
  wf_board b ->
  play_move b m c = Ok (r, b') ->
  wf_board b' /\
  size b' = size b /\ NS b' = NS b /\ WE b' = WE b /\
  maxpoint b' = maxpoint b /\
  ko_recapture b' = ko_recapture b /\
  len (board b') = len (board b) /\
  (forall i, 0 <= i < len (board b) -> on_board (size b) i = false ->
             get_color b' i = Ok BORDER).
Proof.
  intros Hwf Hplay.
  pose proof (play_move_wf b b' m c r Hwf Hplay) as Hwf'.
  assert (size b' = size b /\ NS b' = NS b /\ WE b' = WE b /\
          maxpoint b' = maxpoint b /\ ko_recapture b' = ko_recapture b /\
          len (board b') = len (board b)) as Hsame.
  { destruct (is_black_white c) eqn:Hc;
      [|by unfold play_move in Hplay; rewrite Hc in Hplay].
    destruct m as [|p].
    { unfold play_move in Hplay. rewrite Hc in Hplay. cbn in Hplay.
      by injection Hplay as _ <-. }
    destruct (play_move_cases b p c Hc)
      as [(e & _ & E)|[(v & _ & _ & E)|(k & _ & _ & _ & E)]];
      rewrite E in Hplay; [done| |]; injection Hplay as _ <-; [done|].
    cbn. by rewrite len_insert. }
  split; [done|]. destruct Hsame as (Hs & HN & HW & Hm & Hk & Hl).
  repeat (split; [done|]).
  intros i Hi Hoff. rewrite <- Hl in Hi.
  destruct (lookup_in_range _ i Hi) as [v Hv].
  unfold get_color. apply getitem_in_range; [done|]. rewrite Hv. f_equal.
  apply (wf_border b' (Z.to_nat i) v Hwf' Hv).
  rewrite Z2Nat.id by lia. by rewrite Hs.
Qed.

Lemma play_move_invariant_witness :
  exists b', play_move empty5 (Point 21) BLACK = Ok (true, b') /\ wf_board b'.
Proof.
  eexists. split; [by vm_compute|].
  apply (play_move_invariant empty5 _ (Point 21) BLACK true);
    [constructor; by vm_compute | by vm_compute].
Defined.

(** X2: on a well-formed board, a move of a stone color onto an address of
    the array that is off the playable grid, a border cell, is rejected:
    [play_move] returns false and the board is as before. *)
Theorem play_move_on_border (b : SimpleGoBoard) (p : Z) (c : color) :
  wf_board b ->
  is_black_white c = true ->
  0 <= p < len (board b) ->
  on_board (size b) p = false ->
  play_move b (Point p) c = Ok (false, b).
Proof.
  intros Hwf Hc Hp Hoff.
  destruct (lookup_in_range _ p Hp) as [v Hv].
  assert (v = BORDER) as ->.
  { apply (wf_border b (Z.to_nat p) v Hwf Hv). by rewrite Z2Nat.id by lia. }
  apply (play_move_reject b p c BORDER); [done| |done].
  by apply getitem_in_range.
Qed.

Lemma play_move_on_border_witness :
  play_move empty5 (Point 12) WHITE = Ok (false, empty5).
Proof.
  apply (play_move_on_border empty5 12 WHITE);
    [constructor; by vm_compute | by vm_compute | by vm_compute | by vm_compute].
Defined.

(** X3: how [play_move] fails, before any assignment.  A color that is
    not BLACK or WHITE fails the assertion, whatever the point, the pass
    included.  With a stone color, an address beyond the array in either
    direction that still fits a signed 64-bit integer, the index type of
    numpy, is an IndexError.  (Beyond that range numpy reports an
    overflow instead, which is not part of this model.) *)
Theorem play_move_errors (b : SimpleGoBoard) :
  (forall m c, is_black_white c = false -> play_move b m c = Raise AssertionError) /\
  (forall p c, is_black_white c = true ->
     - 2 ^ 63 <= p < 2 ^ 63 ->
     (p >= len (board b) \/ p < - len (board b)) ->
     play_move b (Point p) c = Raise IndexError).
Proof.
  split.
  - intros m c Hc. unfold play_move. by rewrite Hc.
  - intros p c Hc _ Hp. unfold play_move, getitem, np_index. rewrite Hc. cbn.
    by rewrite !bool_decide_eq_false_2 by lia.
Qed.

Lemma play_move_errors_witness :
  play_move empty5 PASS EMPTY = Raise AssertionError /\
  play_move empty5 (Point 43) BLACK = Raise IndexError.
Proof.
  split.
  - apply (proj1 (play_move_errors empty5)). reflexivity.
  - apply (proj2 (play_move_errors empty5)); [reflexivity|by vm_compute|].
    left. by vm_compute.
Defined.

(** X4: a negative address from [-len] on reaches the array from its end.
    When the cell it reaches is EMPTY the move is accepted and the stone
    is written there, but the win scan, which starts from the negative
    address itself, counts nothing: winner stays as it was. *)
Theorem play_move_negative_point (b : SimpleGoBoard) (p : Z) (c : color) :
  is_black_white c = true ->
  - len (board b) <= p < 0 ->
  board b !! Z.to_nat (len (board b) + p) = Some EMPTY ->
  exists b', play_move b (Point p) c = Ok (true, b') /\
    board b' = <[Z.to_nat (len (board b) + p) := c]> (board b) /\
    winner b' = winner b /\
    current_player b' = opponent c.
Proof.
  intros Hc Hp Hv.
  assert (np_index (len (board b)) p = Some (Z.to_nat (len (board b) + p))) as Hk.
  { unfold np_index. rewrite bool_decide_eq_false_2 by lia.
    by rewrite bool_decide_eq_true_2 by lia. }
  eexists. split; [by apply (play_move_accept b p c _ Hc Hk Hv)|].
  cbn. split; [done|]. split; [|done].
  assert (forall cells step count, scan cells c step 5 count p = count) as Hscan.
  { intros cells step count. apply scan_stops. unfold counted. lia. }
  unfold wins, axis_count. rewrite !Hscan. by cbn.
Qed.

Lemma play_move_negative_point_witness :
  exists b', play_move (with_stones empty5 BLACK [31; 32; 33; 34]) (Point (-8)) BLACK
             = Ok (true, b') /\
    board b' = board (with_stones empty5 BLACK [31; 32; 33; 34; 35]) /\
    winner b' = None.
Proof.
  destruct (play_move_negative_point (with_stones empty5 BLACK [31; 32; 33; 34]) (-8) BLACK)
    as (b' & H1 & H2 & H3 & _); [reflexivity | by vm_compute | reflexivity |].
  exists b'. split; [exact H1|]. split; [|exact H3].
  rewrite H2. reflexivity.
Defined.

(** ** The winner on the boards of a game *)

Lemma wins_five_through (b : SimpleGoBoard) (c : color) (p : Z) :
  wf_board b -> is_black_white c = true -> stone_at (board b) c p ->
  wins (board b) (size b) c p = true <-> five_through b c p.
Proof.
  intros Hwf Hc Hp. unfold wins, five_through.
  rewrite orb4_decide. by rewrite !(axis_count_line b c p _ Hwf Hc Hp).
Qed.

Lemma five_cases (P : Z -> Prop) `{!forall j, Decision (P j)} :
  (exists j, 0 <= j <= 4 /\ P j) \/ ~ (exists j, 0 <= j <= 4 /\ P j).
Proof.
  destruct (decide (P 0)); [left; exists 0; split; [lia|done]|].
  destruct (decide (P 1)); [left; exists 1; split; [lia|done]|].
  destruct (decide (P 2)); [left; exists 2; split; [lia|done]|].
  destruct (decide (P 3)); [left; exists 3; split; [lia|done]|].
  destruct (decide (P 4)); [left; exists 4; split; [lia|done]|].
  right. intros (j & Hj & HP).
  assert (j = 0 \/ j = 1 \/ j = 2 \/ j = 3 \/ j = 4) as [->|[->|[->|[->| ->]]]] by lia;
    done.
Qed.

(** A line of five on the board after a stone was put on [k] either stood
    there before or runs through [k]. *)
Lemma in_line_after_insert (cells : list color) (k : nat) (c c' : color)
    (q step : Z) :
  (k < length cells)%nat ->
  in_line_of_five (<[k := c]> cells) c' q step ->
  in_line_of_five cells c' q step \/
  (c' = c /\ in_line_of_five (<[k := c]> cells) c (Z.of_nat k) step).
Proof.
  intros Hk (k0 & Hk0 & Hall).
  destruct (five_cases (fun j => q + (j - k0) * step = Z.of_nat k))
    as [(j0 & Hj0 & Heq)|Hnone].
  - right.
    assert (c' = c) as ->.
    { destruct (Hall j0 Hj0) as [_ Hv]. rewrite Heq, Nat2Z.id in Hv.
      rewrite list_lookup_insert_eq in Hv by done. congruence. }
    split; [done|]. exists j0. split; [done|]. intros j Hj.
    replace (Z.of_nat k + (j - j0) * step) with (q + (j - k0) * step) by lia.
    by apply Hall.
  - left. exists k0. split; [done|]. intros j Hj.
    destruct (Hall j Hj) as [Hnn Hv]. split; [done|].
    rewrite list_lookup_insert_ne in Hv; [done|].
    intros Hk'. apply Hnone. exists j. split; [done|]. lia.
Qed.

(** Stones stay where they are when a stone is put on an EMPTY cell. *)
Lemma in_line_insert (cells : list color) (k : nat) (c c' : color) (q step : Z) :
  cells !! k = Some EMPTY -> c' <> EMPTY ->
  in_line_of_five cells c' q step ->
  in_line_of_five (<[k := c]> cells) c' q step.
Proof.
  intros Hk Hc' (k0 & Hk0 & Hall). exists k0. split; [done|]. intros j Hj.
  destruct (Hall j Hj) as [Hnn Hv]. split; [done|].
  rewrite list_lookup_insert_ne; [done|]. intros ->. congruence.
Qed.

Lemma layout_no_stone (sz : Z) (c : color) (i : Z) :
  2 <= sz -> is_black_white c = true ->
  ~ stone_at (layout sz (Z.to_nat sz)) c i.
Proof.
  intros Hsz Hc [_ Hv]. apply layout_lookup in Hv; [|done].
  destruct (on_board sz (Z.of_nat (Z.to_nat i))); by subst c.
Qed.

(** What holds of every board of a game. *)
Lemma reachable_invariant (MAXSIZE : Z) (b : SimpleGoBoard) :
  reachable MAXSIZE b ->
  wf_board b /\ size b <= MAXSIZE /\ ko_recapture b = None /\
  is_black_white (current_player b) = true /\
  (forall c, winner b = Some c ->
             is_black_white c = true /\ exists p, five_through b c p) /\
  (has_five b -> winner b <> None).
Proof.
  induction 1 as [sz b Hinit|b b' m c r Hreach IH Hm Hplay].
  - pose proof (init_wf _ _ _ Hinit) as Hwf.
    unfold init in Hinit. case_bool_decide as Hsz; [|done]. cbn in Hinit.
    rewrite reset_layout in Hinit by lia. injection Hinit as <-.
    split; [done|]. cbn. split; [lia|]. split; [done|]. split; [done|].
    split; [done|].
    intros (c & p & Hc & Hfive). exfalso.
    assert (forall step, ~ in_line_of_five (layout sz (Z.to_nat sz)) c p step) as Hno.
    { intros step (k & Hk & Hall).
      apply (layout_no_stone sz c (p + (0 - k) * step)); [lia|done|].
      apply Hall. lia. }
    unfold five_through in Hfive. cbn in Hfive.
    destruct Hfive as [H|[H|[H|H]]]; by apply Hno in H.
  - destruct IH as (Hwf & Hmax & Hko & Hcp & Hwin & Hfive).
    destruct (is_black_white c) eqn:Hc;
      [|by unfold play_move in Hplay; rewrite Hc in Hplay].
    destruct m as [|p].
    { unfold play_move in Hplay. rewrite Hc in Hplay. cbn in Hplay.
      injection Hplay as _ <-.
      split; [by apply wf_set_current_player|]. cbn.
      split; [done|]. split; [done|]. split; [by destruct c|]. by split. }
    destruct (play_move_cases b p c Hc)
      as [(e & _ & E)|[(v & _ & _ & E)|(k & _ & Hk & Hv & E)]];
      rewrite E in Hplay; [done| |]; injection Hplay as _ <-; [done|].
    cbn in Hm.
    assert (k = Z.to_nat p) as ->.
    { unfold np_index in Hk. case_bool_decide; [congruence|].
      case_bool_decide; [lia|done]. }
    set (cells := <[Z.to_nat p := c]> (board b)).
    set (b' := mkBoard _ _ _ _ _ _ _ _).
    assert (wf_board b') as Hwf'.
    { destruct Hwf as [H1 H2 H3 H4 H5 H6].
      constructor; unfold b', cells; cbn [size NS WE maxpoint board]; try done.
      - by rewrite len_insert.
      - apply cells_ok_insert; [done|done|]. by destruct c. }
    assert (stone_at (board b') c p) as Hat.
    { split; [done|]. cbn. apply list_lookup_insert_eq. by apply lookup_lt_Some in Hv. }
    pose proof (wins_five_through b' c p Hwf' Hc Hat) as Hiff.
    split; [done|]. cbn. split; [done|]. split; [done|]. split; [by destruct c|].
    split.
    + intros c0 Hc0. cbn in Hiff.
      destruct (wins cells (size b) c p) eqn:Hw.
      * injection Hc0 as <-. split; [done|]. exists p. by apply Hiff.
      * destruct (Hwin c0 Hc0) as (Hbw & q & Hq). split; [done|]. exists q.
        unfold five_through in *. cbn.
        assert (c0 <> EMPTY) as Hne by (by destruct c0).
        destruct Hq as [H|[H|[H|H]]]; [left|right; left|right; right; left|right; right; right];
          by apply in_line_insert.
    + intros (c0 & q & Hbw & Hq). cbn in Hiff.
      destruct (wins cells (size b) c p) eqn:Hw; [done|].
      apply Hfive. exists c0, q. split; [done|].
      assert (Z.to_nat p < length (board b))%nat as Hlt by (by apply lookup_lt_Some in Hv).
      assert (forall step, in_line_of_five cells c0 q step ->
                in_line_of_five (board b) c0 q step \/
                in_line_of_five cells c p step) as Hcase.
      { intros step Hl.
        destruct (in_line_after_insert (board b) (Z.to_nat p) c c0 q step Hlt Hl)
          as [Hold|[_ Hnew]]; [by left|right].
        by rewrite Z2Nat.id in Hnew by lia. }
      assert (~ five_through b' c p) as Hno.
      { intros Hf. apply Hiff in Hf. congruence. }
      unfold five_through in *. cbn in Hq, Hno.
      destruct Hq as [H|[H|[H|H]]]; apply Hcase in H as [H|H]; tauto.
Qed.

Lemma reachable_play_all (MAXSIZE : Z) (ms : list (Z * color)) :
  forall b, reachable MAXSIZE b ->
  Forall (fun pc => 0 <= pc.1) ms ->
  reachable MAXSIZE (play_all b ms).
Proof.
  induction ms as [|[p c] ms IH]; intros b Hb Hms; [done|].
  apply Forall_cons in Hms as [Hp Hms]. cbn [play_all].
  destruct (play_move b (Point p) c) as [[r b']|e] eqn:Hplay; [|done].
  apply IH; [|done]. by apply (reach_move MAXSIZE b b' (Point p) c r).
Qed.

Lemma black_has_won_reachable : reachable 25 black_has_won.
Proof.
  change black_has_won with
    (play_all empty5
       [(19, BLACK); (7, WHITE); (20, BLACK); (8, WHITE); (21, BLACK);
        (9, WHITE); (22, BLACK); (10, WHITE); (23, BLACK)]).
  apply reachable_play_all.
  - by apply (reach_init 25 5).
  - repeat (constructor; [by vm_compute|]). constructor.
Defined.

(** X5: every board of a game, built by [__init__] and changed by
    [play_move] with passes and addresses that are not negative, is well
    formed, has a size from 2 to MAXSIZE, has ko_recapture unset and has a
    stone color to move. *)
Theorem reachable_well_formed (MAXSIZE : Z) (b : SimpleGoBoard) :
  reachable MAXSIZE b ->
  wf_board b /\ 2 <= size b <= MAXSIZE /\ ko_recapture b = None /\
  is_black_white (current_player b) = true.
Proof.
  intros Hb. destruct (reachable_invariant MAXSIZE b Hb) as (Hwf & Hmax & Hko & Hcp & _).
  pose proof (wf_size b Hwf). split; [done|]. split; [lia|]. by split.
Qed.

Lemma reachable_well_formed_witness :
  wf_board black_has_won /\ 2 <= size black_has_won <= 25 /\
  ko_recapture black_has_won = None /\
  is_black_white (current_player black_has_won) = true.
Proof. apply (reachable_well_formed 25 black_has_won black_has_won_reachable). Defined.

(** X6: on every board of a game winner is set exactly when five stones
    of one color stand in a row along one of the four axes, and the color
    it holds is a stone color with such a row on the board. *)
Theorem winner_iff_five (MAXSIZE : Z) (b : SimpleGoBoard) :
  reachable MAXSIZE b ->
  (winner b <> None <-> has_five b) /\
  (forall c, winner b = Some c ->
             is_black_white c = true /\ exists p, five_through b c p).
Proof.
  intros Hb.
  destruct (reachable_invariant MAXSIZE b Hb) as (_ & _ & _ & _ & Hwin & Hfive).
  split; [|done]. split; [|done].
  destruct (winner b) as [c|] eqn:Hw; [|done]. intros _.
  destruct (Hwin c eq_refl) as (Hc & p & Hp). by exists c, p.
Qed.

Lemma winner_iff_five_witness :
  (winner black_has_won <> None <-> has_five black_has_won) /\
  (forall c, winner black_has_won = Some c ->
             is_black_white c = true /\ exists p, five_through black_has_won c p).
Proof. apply (winner_iff_five 25 black_has_won black_has_won_reachable). Defined.

(** ** The reach of the win scan *)

Lemma scan_ext (cells1 cells2 : list color) (c : color) (step : Z) (n : nat) :
  forall count location,
  (forall j, 0 <= j < Z.of_nat n ->
     counted cells1 c (location + j * step) <-> counted cells2 c (location + j * step)) ->
  scan cells1 c step n count location = scan cells2 c step n count location.
Proof.
  induction n as [|n IH]; intros count location Hsame; [done|].
  destruct (decide (counted cells1 c location)) as [H1|H1].
  - assert (counted cells2 c location) as H2.
    { specialize (Hsame 0). rewrite Z.mul_0_l, Z.add_0_r in Hsame. apply Hsame; [lia|done]. }
    cbn [scan]. destruct H1 as [Hr1 Hv1], H2 as [Hr2 Hv2].
    rewrite !bool_decide_eq_true_2 by (done || lia). cbn [andb].
    apply IH. intros j Hj.
    replace (location + step + j * step) with (location + (j + 1) * step) by lia.
    apply Hsame. lia.
  - assert (~ counted cells2 c location) as H2.
    { specialize (Hsame 0). rewrite Z.mul_0_l, Z.add_0_r in Hsame.
      intros H. apply H1, Hsame; [lia|done]. }
    by rewrite !scan_stops.
Qed.

(** X7: the count of an axis is from -1 to 9, and it depends on the array
    only through the nine cells up to four steps from the point along the
    axis: two arrays on which the same of these cells are in range and of
    the color played have the same count. *)
Theorem axis_count_reach (cells1 cells2 : list color) (c : color) (p step : Z) :
  -1 <= axis_count cells1 c p step <= 9 /\
  ((forall j, -4 <= j <= 4 ->
      counted cells1 c (p + j * step) <-> counted cells2 c (p + j * step)) ->
   axis_count cells1 c p step = axis_count cells2 c p step).
Proof.
  split.
  - unfold axis_count.
    destruct (scan_spec cells1 c step 5 (-1) p) as (m1 & Hm1 & -> & _).
    destruct (scan_spec cells1 c (- step) 5 (-1 + m1) p) as (m2 & Hm2 & -> & _).
    lia.
  - intros Hsame. unfold axis_count.
    rewrite (scan_ext cells1 cells2 c step 5 (-1) p).
    2:{ intros j Hj. apply Hsame. lia. }
    apply scan_ext. intros j Hj.
    replace (p + j * - step) with (p + (- j) * step) by lia.
    apply Hsame. lia.
Qed.

Lemma axis_count_reach_witness :
  axis_count (board (with_stones empty5 BLACK [19; 20; 21; 22; 23])) BLACK 21 1
  = axis_count (board (with_stones empty5 BLACK [19; 20; 21; 22; 23; 7; 35])) BLACK 21 1.
Proof.
  apply (proj2 (axis_count_reach
                  (board (with_stones empty5 BLACK [19; 20; 21; 22; 23]))
                  (board (with_stones empty5 BLACK [19; 20; 21; 22; 23; 7; 35]))
                  BLACK 21 1)).
  intros j Hj.
  assert (j = -4 \/ j = -3 \/ j = -2 \/ j = -1 \/ j = 0 \/ j = 1 \/ j = 2 \/
          j = 3 \/ j = 4) as [->|[->|[->|[->|[->|[->|[->|[->| ->]]]]]]]] by lia;
    unfold counted; by vm_compute.
Defined.

(** ** Lines of five are lines of the grid *)

Lemma getitem_nonneg {A : Type} (a : list A) (i : Z) (v : A) :
  0 <= i -> getitem a i = Ok v -> a !! Z.to_nat i = Some v.
Proof.
  intros Hi. unfold getitem, np_index.
  case_bool_decide as Hr.
  - destruct (a !! Z.to_nat i); [|done]. by intros [= ->].
  - rewrite bool_decide_eq_false_2 by lia. done.
Qed.

Lemma stone_on_board (b : SimpleGoBoard) (c : color) (a : Z) :
  wf_board b -> is_black_white c = true -> stone_at (board b) c a ->
  on_board (size b) a = true.
Proof.
  intros Hwf Hc [Ha Hv].
  destruct (on_board (size b) a) eqn:Hon; [done|].
  assert (c = BORDER) as ->; [|done].
  apply (wf_border b (Z.to_nat a) c Hwf Hv). by rewrite Z2Nat.id by lia.
Qed.

(** One step along an axis from a point of the grid to a point of the
    grid changes the row and the column by the steps of the axis. *)
Lemma axis_step_on_board (s R C dr dc : Z) :
  2 <= s -> 1 <= R <= s -> 1 <= C <= s ->
  0 <= dr <= 1 -> -1 <= dc <= 1 ->
  on_board s (R * (s + 1) + C + (dr * (s + 1) + dc)) = true ->
  1 <= R + dr <= s /\ 1 <= C + dc <= s.
Proof.
  intros Hs HR HC Hdr Hdc Hon.
  apply on_board_iff in Hon; [|lia].
  destruct Hon as (r' & c' & Hr' & Hc' & Heq). unfold coord_to_point in Heq.
  assert (r' - R - dr = 0) as HD by nia.
  assert (c' = C + dc) by nia. lia.
Qed.

Lemma line_geometric (b : SimpleGoBoard) (c : color) (p dr dc : Z) :
  wf_board b -> is_black_white c = true ->
  0 <= dr <= 1 -> -1 <= dc <= 1 ->
  in_line_of_five (board b) c p (dr * (size b + 1) + dc) ->
  exists row col k,
    0 <= k <= 4 /\
    p = pt b (row + k * dr) (col + k * dc) /\
    forall j, 0 <= j <= 4 ->
      1 <= row + j * dr <= size b /\ 1 <= col + j * dc <= size b /\
      get_color b (pt b (row + j * dr) (col + j * dc)) = Ok c.
Proof.
  intros Hwf Hc Hdr Hdc (k & Hk & Hall).
  pose proof (wf_size b Hwf) as Hs.
  set (s := size b) in *. set (step := dr * (s + 1) + dc) in *.
  set (a0 := p + (0 - k) * step).
  assert (forall j, 0 <= j <= 4 -> stone_at (board b) c (a0 + j * step)) as Hstones.
  { intros j Hj. replace (a0 + j * step) with (p + (j - k) * step) by (unfold a0; lia).
    by apply Hall. }
  assert (on_board s a0 = true) as Hon0.
  { apply (stone_on_board b c a0 Hwf Hc).
    replace a0 with (a0 + 0 * step) by lia. apply Hstones. lia. }
  apply on_board_iff in Hon0; [|lia].
  destruct Hon0 as (row & col & Hrow & Hcol & Ha0). unfold coord_to_point in Ha0.
  assert (forall n : nat, (n <= 4)%nat ->
            1 <= row + Z.of_nat n * dr <= s /\ 1 <= col + Z.of_nat n * dc <= s)
    as Hbounds.
  { induction n as [|n IH]; intros Hn; [lia|].
    destruct IH as [HR HC]; [lia|].
    pose proof (Hstones (Z.of_nat (S n))) as Hst.
    apply (stone_on_board b c _ Hwf Hc) in Hst; [|lia]. fold s in Hst.
    replace (a0 + Z.of_nat (S n) * step)
      with ((row + Z.of_nat n * dr) * (s + 1) + (col + Z.of_nat n * dc)
            + (dr * (s + 1) + dc)) in Hst by (unfold step; lia).
    apply axis_step_on_board in Hst; lia. }
  exists row, col, k. split; [done|].
  assert (forall j, pt b (row + j * dr) (col + j * dc) = a0 + j * step) as Hpt.
  { intros j. unfold pt, coord_to_point, step. fold s. lia. }
  split.
  { rewrite Hpt. unfold a0. lia. }
  intros j Hj.
  destruct (Hbounds (Z.to_nat j)) as [HR HC]; [lia|].
  rewrite Z2Nat.id in HR, HC by lia.
  split; [done|]. split; [done|].
  rewrite Hpt. destruct (Hstones j Hj) as [Hnn Hv].
  unfold get_color. by apply getitem_lookup.
Qed.

Lemma geometric_line (b : SimpleGoBoard) (c : color) (row col dr dc k : Z) :
  0 <= k <= 4 ->
  (forall j, 0 <= j <= 4 ->
     1 <= row + j * dr <= size b /\ 1 <= col + j * dc <= size b /\
     get_color b (pt b (row + j * dr) (col + j * dc)) = Ok c) ->
  2 <= size b -> 0 <= dr <= 1 -> -1 <= dc <= 1 ->
  in_line_of_five (board b) c (pt b (row + k * dr) (col + k * dc))
                  (dr * (size b + 1) + dc).
Proof.
  intros Hk Hall Hs Hdr Hdc. exists k. split; [done|]. intros j Hj.
  destruct (Hall j Hj) as (HR & HC & Hv).
  replace (pt b (row + k * dr) (col + k * dc) + (j - k) * (dr * (size b + 1) + dc))
    with (pt b (row + j * dr) (col + j * dc))
    by (unfold pt, coord_to_point; lia).
  assert (0 <= pt b (row + j * dr) (col + j * dc)) as Hnn
    by (unfold pt, coord_to_point; nia).
  split; [done|]. by apply getitem_nonneg.
Qed.

(** X8: on a well-formed board, five stones of a stone color in a row in
    the array, along one of the four strides that the win scan uses, are
    five stones on points of the playable grid in one row, one column or
    one diagonal, and the other way round: a line of the scan never runs
    over the edge of the board into the next row. *)
Theorem five_through_geometric (b : SimpleGoBoard) (c : color) (p : Z) :
  wf_board b -> is_black_white c = true ->
  five_through b c p <-> geometric_five b c p.
Proof.
  intros Hwf Hc. pose proof (wf_size b Hwf) as Hs. split.
  - intros Hfive.
    assert (exists dr dc, (dr, dc) ∈ axes /\ 0 <= dr <= 1 /\ -1 <= dc <= 1 /\
              in_line_of_five (board b) c p (dr * (size b + 1) + dc))
      as (dr & dc & Hin & Hdr & Hdc & Hline).
    { unfold axes. destruct Hfive as [H|[H|[H|H]]].
      - exists 0, 1. rewrite !elem_of_cons. split; [tauto|]. split; [lia|].
        split; [lia|]. by replace (0 * (size b + 1) + 1) with 1 by lia.
      - exists 1, 0. rewrite !elem_of_cons. split; [tauto|]. split; [lia|].
        split; [lia|]. by replace (1 * (size b + 1) + 0) with (size b + 1) by lia.
      - exists 1, 1. rewrite !elem_of_cons. split; [tauto|]. split; [lia|].
        split; [lia|]. by replace (1 * (size b + 1) + 1) with (size b + 2) by lia.
      - exists 1, (-1). rewrite !elem_of_cons. split; [tauto|]. split; [lia|].
        split; [lia|]. by replace (1 * (size b + 1) + -1) with (size b) by lia. }
    destruct (line_geometric b c p dr dc Hwf Hc Hdr Hdc Hline)
      as (row & col & k & Hk & Hp & Hall).
    by exists row, col, dr, dc, k.
  - intros (row & col & dr & dc & k & Hin & Hk & -> & Hall).
    unfold axes in Hin. rewrite !elem_of_cons, elem_of_nil in Hin.
    unfold five_through.
    destruct Hin as [[= -> ->]|[[= -> ->]|[[= -> ->]|[[= -> ->]|[]]]]].
    + pose proof (geometric_line b c row col 0 1 k Hk Hall Hs
                    ltac:(lia) ltac:(lia)) as Hline.
      replace (0 * (size b + 1) + 1) with 1 in Hline by lia. by left.
    + pose proof (geometric_line b c row col 1 0 k Hk Hall Hs
                    ltac:(lia) ltac:(lia)) as Hline.
      replace (1 * (size b + 1) + 0) with (size b + 1) in Hline by lia.
      right. by left.
    + pose proof (geometric_line b c row col 1 1 k Hk Hall Hs
                    ltac:(lia) ltac:(lia)) as Hline.
      replace (1 * (size b + 1) + 1) with (size b + 2) in Hline by lia.
      right. right. by left.
    + pose proof (geometric_line b c row col 1 (-1) k Hk Hall Hs
                    ltac:(lia) ltac:(lia)) as Hline.
      replace (1 * (size b + 1) + -1) with (size b) in Hline by lia.
      right. right. by right.
Qed.

Lemma five_through_geometric_witness :
  five_through black_has_won BLACK 21 <-> geometric_five black_has_won BLACK 21.
Proof.
  apply (five_through_geometric black_has_won BLACK 21);
    [constructor; by vm_compute | reflexivity].
Defined.

(** ** Legality and copies *)

(** X9: for a well-formed board of the store with a size up to MAXSIZE and
    a stone color, a pass is legal, and a point whose cell can be read is
    legal exactly when the cell is EMPTY: no other rule, of turn, capture,
    suicide or ko, enters [is_legal]. *)
Theorem is_legal_iff_empty (MAXSIZE : Z) (h : heap) (self : loc)
    (s : SimpleGoBoard) (c : color) :
  load h self = Some s ->
  wf_board s ->
  size s <= MAXSIZE ->
  is_black_white c = true ->
  (exists h', is_legal MAXSIZE self PASS c h = Some (Ok true, h')) /\
  (forall p v, get_color s p = Ok v ->
     exists h', is_legal MAXSIZE self (Point p) c h
                = Some (Ok (bool_decide (v = EMPTY)), h')).
Proof.
  intros Hload Hwf Hmax Hc. split.
  - destruct (is_legal_spec MAXSIZE h self s PASS c Hload Hwf Hmax)
      as (res & h' & _ & _ & E & _ & _ & _ & _ & _ & _ & _ & _ & _ & R).
    exists h'. rewrite E, R. unfold play_move. by rewrite Hc.
  - intros p v Hv.
    destruct (is_legal_spec MAXSIZE h self s (Point p) c Hload Hwf Hmax)
      as (res & h' & _ & _ & E & _ & _ & _ & _ & _ & _ & _ & _ & _ & R).
    exists h'. rewrite E, R. unfold get_color in Hv.
    destruct (play_move_cases s p c Hc)
      as [(e & G & ->)|[(v' & G & N & ->)|(k & G & _ & _ & ->)]]; [congruence| |].
    + assert (v' = v) as -> by congruence. by rewrite bool_decide_eq_false_2.
    + assert (v = EMPTY) as -> by congruence. by rewrite bool_decide_eq_true_2.
Qed.

Lemma is_legal_iff_empty_witness :
  (exists h', is_legal 25 1%positive PASS WHITE heap5 = Some (Ok true, h')) /\
  (forall p v, get_color empty5 p = Ok v ->
     exists h', is_legal 25 1%positive (Point p) WHITE heap5
                = Some (Ok (bool_decide (v = EMPTY)), h')).
Proof.
  apply (is_legal_iff_empty 25 heap5 1%positive empty5 WHITE);
    [by vm_compute | constructor; by vm_compute | by vm_compute | reflexivity].
Defined.

(** A move on one board of the store leaves the boards that have another
    object and another array as they were. *)
Lemma play_move_obj_frame (h h2 : heap) (l l' : loc) (o o' : GoBoard loc)
    (m : move) (c : color) (res : result bool) :
  play_move_obj l m c h = Some (res, h2) ->
  objects h !! l = Some o ->
  objects h !! l' = Some o' ->
  l' <> l -> board o' <> board o ->
  load h2 l' = load h l'.
Proof.
  intros Hplay Hl Hl' Hne Hnea. unfold play_move_obj in Hplay. rewrite Hl in Hplay.
  destruct (arrays h !! board o) as [cells|]; [|done].
  destruct (play_move (set_board o cells) m c) as [[legal s']|e];
    injection Hplay as _ <-; [|done].
  unfold load. cbn [objects arrays].
  rewrite lookup_insert_ne by done. rewrite Hl'.
  by rewrite lookup_insert_ne by done.
Qed.

(** X10: for a well-formed board of the store with a size up to MAXSIZE,
    [copy] returns a new object with the state of [self] and leaves every
    board of the store as it was; afterwards a move on [self] does not
    change the copy and a move on the copy does not change [self]. *)
Theorem copy_independent (MAXSIZE : Z) (h : heap) (self : loc)
    (s : SimpleGoBoard) :
  load h self = Some s ->
  wf_board s ->
  size s <= MAXSIZE ->
  exists bc h1,
    copy MAXSIZE self h = Some (Ok bc, h1) /\
    bc <> self /\
    objects h !! bc = None /\
    load h1 bc = Some s /\
    (forall l x, load h l = Some x -> load h1 l = Some x) /\
    (forall m c res h2, play_move_obj self m c h1 = Some (res, h2) ->
                        load h2 bc = Some s) /\
    (forall m c res h2, play_move_obj bc m c h1 = Some (res, h2) ->
                        load h2 self = Some s).
Proof.
  intros Hload Hwf Hmax.
  destruct (load_inv h self s Hload) as (o & cells & Hself & Harr & ->).
  destruct (copy_spec MAXSIZE h self o cells Hself Harr Hwf Hmax) as [cells0 Hcopy].
  cbv zeta in Hcopy.
  set (a0 := fresh (dom (arrays h))) in *.
  set (arrs := <[a0 := cells0]> (arrays h)) in *.
  set (a1 := fresh (dom arrs)) in *.
  set (bc := fresh (dom (objects h))) in *.
  set (h1 := mkHeap (<[bc := set_board o a1]> (objects h)) (<[a1 := cells]> arrs)) in *.
  assert (forall l x, objects h !! l = Some x -> bc <> l) as Hfo.
  { intros l x Hl. by apply (fresh_object h l x). }
  assert (forall a x, arrays h !! a = Some x -> a0 <> a) as Hfa0.
  { intros a x Ha. by apply (fresh_array _ a x). }
  assert (forall a x, arrs !! a = Some x -> a1 <> a) as Hfa1.
  { intros a x Ha. by apply (fresh_array _ a x). }
  assert (forall a x, arrays h !! a = Some x -> arrays h1 !! a = Some x) as Harrs.
  { intros a x Ha. cbn.
    assert (arrs !! a = Some x) as Ha'.
    { unfold arrs. rewrite lookup_insert_ne; [done|]. by apply (Hfa0 a x). }
    rewrite lookup_insert_ne; [done|]. by apply (Hfa1 a x). }
  assert (forall l x, objects h !! l = Some x -> objects h1 !! l = Some x) as Hobjs.
  { intros l x Hl. cbn. rewrite lookup_insert_ne; [done|]. by apply (Hfo l x). }
  assert (bc <> self) as Hne by (by apply (Hfo self o)).
  assert (objects h1 !! bc = Some (set_board o a1)) as Hbc
    by (cbn; by rewrite lookup_insert_eq).
  assert (arrays h1 !! a1 = Some cells) as Ha1
    by (cbn; by rewrite lookup_insert_eq).
  assert (a1 <> board o) as Hnea.
  { apply (Hfa1 _ cells). unfold arrs. rewrite lookup_insert_ne; [done|].
    by apply (Hfa0 _ cells). }
  assert (load h1 bc = Some (set_board o cells)) as Hloadbc.
  { unfold load. rewrite Hbc. change (board (set_board o a1)) with a1.
    by rewrite Ha1. }
  assert (load h1 self = Some (set_board o cells)) as Hloadself.
  { unfold load. rewrite (Hobjs self o Hself). by rewrite (Harrs _ _ Harr). }
  exists bc, h1. split; [exact Hcopy|]. split; [exact Hne|].
  split; [|split; [exact Hloadbc|split; [|split]]].
  - apply not_elem_of_dom. apply is_fresh.
  - intros l x Hl. destruct (load_inv h l x Hl) as (ol & cl & Hol & Hcl & ->).
    unfold load. rewrite (Hobjs l ol Hol). by rewrite (Harrs _ _ Hcl).
  - intros m c res h2 Hplay. transitivity (load h1 bc); [|exact Hloadbc].
    apply (play_move_obj_frame h1 h2 self bc o (set_board o a1) m c res Hplay);
      [by apply Hobjs|done|done|done].
  - intros m c res h2 Hplay. transitivity (load h1 self); [|exact Hloadself].
    apply (play_move_obj_frame h1 h2 bc self (set_board o a1) o m c res Hplay);
      [done|by apply Hobjs|done|]. cbn. congruence.
Qed.

Lemma copy_independent_witness :
  exists bc h1,
    copy 25 1%positive heap5 = Some (Ok bc, h1) /\
    bc <> 1%positive /\
    load h1 bc = Some empty5.
Proof.
  destruct (copy_independent 25 heap5 1%positive empty5)
    as (bc & h1 & H1 & H2 & _ & H3 & _);
    [by vm_compute | constructor; by vm_compute | by vm_compute |].
  exists bc, h1. repeat split; assumption.
Defined.

(** ** Neighbours of a color *)

Lemma neighbors_of_color_loop_ok (cells : list color) (c : color) (nbs : list Z) :
  forall nbc,
  (forall n, n ∈ nbs -> exists v, getitem cells n = Ok v) ->
  neighbors_of_color_loop cells c nbs nbc
  = Ok (nbc ++ filter (fun n => getitem cells n = Ok c) nbs).
Proof.
  induction nbs as [|nb rest IH]; intros nbc Hread; cbn [neighbors_of_color_loop].
  - by rewrite filter_nil, app_nil_r.
  - destruct (Hread nb) as [v Hv]; [apply list_elem_of_here|].
    rewrite filter_cons. rewrite !Hv. cbn [bind].
    assert (forall n, n ∈ rest -> exists v, getitem cells n = Ok v) as Hrest.
    { intros n Hn. apply Hread. by apply list_elem_of_further. }
    destruct (decide (v = c)) as [->|Hne].
    + rewrite bool_decide_eq_true_2 by done. rewrite IH by done.
      destruct (decide (Ok c = Ok c)); [|done]. by rewrite <- app_assoc.
    + rewrite bool_decide_eq_false_2 by done. rewrite IH by done.
      destruct (decide (Ok v = Ok c)) as [[= ->]|]; done.
Qed.

(** On a well-formed board [neighbors_of_color] of a playable point
    raises nothing and gives the neighbours that hold the color. *)
Lemma neighbors_of_color_playable (b : SimpleGoBoard) (p : Z) (c : color) :
  wf_board b -> on_board (size b) p = true ->
  neighbors_of_color b p c
  = Ok (filter (fun n => getitem (board b) n = Ok c) (_neighbors b p)).
Proof.
  intros Hwf Hon. pose proof (wf_size b Hwf) as Hs.
  apply on_board_iff in Hon; [|lia].
  destruct Hon as (row & col & Hrow & Hcol & ->).
  unfold neighbors_of_color. rewrite neighbors_of_color_loop_ok; [done|].
  intros n Hn.
  destruct (neighbor_read b row col n Hwf Hrow Hcol) as (_ & v & Hv & _); [|eauto].
  apply elem_of_app. by left.
Qed.

(** X11: on a well-formed board, [neighbors_of_color] of a playable point
    raises nothing and returns, in the order of [_neighbors], exactly the
    neighbours whose cell holds the color; for a color other than BORDER
    these are points of the playable grid. *)
Theorem neighbors_of_color_spec (b : SimpleGoBoard) (row col : Z) (c : color) :
  wf_board b ->
  1 <= row <= size b -> 1 <= col <= size b ->
  exists nbc,
    neighbors_of_color b (pt b row col) c = Ok nbc /\
    nbc = filter (fun n => get_color b n = Ok c) (_neighbors b (pt b row col)) /\
    (forall n, n ∈ nbc <-> n ∈ _neighbors b (pt b row col) /\ get_color b n = Ok c) /\
    (c <> BORDER -> forall n, n ∈ nbc -> on_board (size b) n = true).
Proof.
  intros Hwf Hrow Hcol. pose proof (wf_size b Hwf) as Hs.
  assert (on_board (size b) (pt b row col) = true) as Hon.
  { apply on_board_iff; [lia|]. by exists row, col. }
  eexists. split; [by apply neighbors_of_color_playable|].
  split; [done|]. split.
  - intros n. by rewrite list_elem_of_filter, (comm and).
  - intros Hc n [Hv Hn]%list_elem_of_filter.
    destruct (neighbor_read b row col n Hwf Hrow Hcol) as (_ & v & Hv' & [Hon'| ->]).
    + apply elem_of_app. by left.
    + done.
    + congruence.
Qed.

Lemma neighbors_of_color_spec_witness :
  exists nbc,
    neighbors_of_color captured_corner (pt captured_corner 1 1) WHITE = Ok nbc /\
    nbc = filter (fun n => get_color captured_corner n = Ok WHITE)
                 (_neighbors captured_corner (pt captured_corner 1 1)).
Proof.
  destruct (neighbors_of_color_spec captured_corner 1 1 WHITE)
    as (nbc & H1 & H2 & _);
    [constructor; by vm_compute | by vm_compute | by vm_compute |].
  exists nbc. by split.
Defined.

(** ** The flood fill of [_block_of] *)

Lemma count_false_insert (marker : list bool) (k : nat) :
  marker !! k = Some false ->
  S (count_false (<[k := true]> marker)) = count_false marker.
Proof.
  revert k. unfold count_false.
  induction marker as [|x marker IH]; intros k Hk; [done|].
  destruct k as [|k]; cbn in Hk.
  - injection Hk as ->. cbn [insert list_insert]. rewrite !filter_cons.
    by destruct (decide (true = false)), (decide (false = false)).
  - cbn [insert list_insert]. rewrite !filter_cons.
    destruct (decide (x = false)); cbn [length]; by rewrite <- (IH k Hk).
Qed.

Lemma count_false_le (marker : list bool) :
  (count_false marker <= length marker)%nat.
Proof. apply length_filter. Qed.

(** The inner loop marks what it pushes: the unmarked cells and the stack
    together keep their number. *)
Lemma mark_loop_measure (nbs : list Z) :
  forall marker pointstack marker' pointstack',
  mark_loop nbs marker pointstack = Ok (marker', pointstack') ->
  length marker' = length marker /\
  (count_false marker' + length pointstack'
   = count_false marker + length pointstack)%nat.
Proof.
  induction nbs as [|nb rest IH]; intros marker stack marker' stack' Hloop;
    cbn [mark_loop] in Hloop.
  - by injection Hloop as <- <-.
  - destruct (getitem marker nb) as [m|] eqn:Hm; [|done]. cbn [bind] in Hloop.
    destruct m; cbn [negb] in Hloop; [by apply IH|].
    destruct (getitem_setitem _ _ _ true Hm) as (k & _ & Hk & Hset).
    rewrite Hset in Hloop. cbn [bind] in Hloop.
    apply IH in Hloop as [Hlen Hcount]. rewrite length_insert in Hlen.
    split; [done|]. rewrite Hcount. cbn [length].
    pose proof (count_false_insert marker k Hk). lia.
Qed.

(** The outer loop needs at most as many rounds as there are points on the
    stack and cells not yet marked. *)
Lemma block_loop_terminates (b : SimpleGoBoard) (c : color) (fuel : nat) :
  forall marker pointstack,
  (count_false marker + length pointstack <= fuel)%nat ->
  exists r, block_loop fuel b c marker pointstack = Some r.
Proof.
  induction fuel as [|fuel IH]; intros marker stack Hfuel.
  - destruct stack as [|p rest]; [by eexists|cbn in Hfuel; lia].
  - destruct stack as [|p rest]; [by eexists|]. cbn [block_loop].
    destruct (neighbors_of_color b p c) as [nbs|e]; [|by eexists].
    destruct (mark_loop nbs marker rest) as [[marker' stack']|e] eqn:Hloop;
      [|by eexists].
    apply mark_loop_measure in Hloop as [_ Hcount].
    apply IH. cbn [length] in Hfuel. lia.
Qed.

(** X12: [_block_of] ends on every board and for every point: the rounds
    it is given are never used up.  On a point whose cell reads as EMPTY
    or BORDER it ends with the AssertionError; on a point of a stone
    color that can be marked it ends with the marker array or an
    exception of a later read. *)
Theorem block_of_terminates (b : SimpleGoBoard) (stone : Z) :
  (exists r, _block_of b stone = Some r) /\
  (forall v, get_color b stone = Ok v -> is_black_white v = false ->
             _block_of b stone = Some (Raise AssertionError)) /\
  (forall e, get_color b stone = Raise e -> _block_of b stone = Some (Raise e)).
Proof.
  split; [|split].
  - unfold _block_of. destruct (get_color b stone) as [c|e]; [|by eexists].
    destruct (is_black_white c); cbn [negb]; [|by eexists].
    destruct (setitem _ stone true) as [marker'|e] eqn:Hset; [|by eexists].
    apply block_loop_terminates. cbn [length].
    unfold setitem in Hset.
    destruct (np_index _ stone) as [k|] eqn:Hk; [|done]. injection Hset as <-.
    apply np_index_lt in Hk. unfold len in Hk. rewrite length_replicate in Hk.
    rewrite length_insert, length_replicate.
    assert (replicate (Z.to_nat (maxpoint b)) false !! k = Some false) as Hf.
    { apply lookup_replicate_2. lia. }
    pose proof (count_false_insert _ k Hf) as Hc.
    pose proof (count_false_le (replicate (Z.to_nat (maxpoint b)) false)) as Hle.
    rewrite length_replicate in Hle. lia.
  - intros v Hv Hbw. unfold _block_of. by rewrite Hv, Hbw.
  - intros e He. unfold _block_of. by rewrite He.
Qed.

Lemma block_of_terminates_witness :
  _block_of empty5 21 = Some (Raise AssertionError).
Proof.
  apply (proj1 (proj2 (block_of_terminates empty5 21)) EMPTY); reflexivity.
Defined.

Lemma marked_insert (marker : list bool) (nb q : Z) :
  0 <= nb < len marker ->
  marked (<[Z.to_nat nb := true]> marker) q <-> marked marker q \/ q = nb.
Proof.
  intros Hnb. unfold marked. unfold len in Hnb.
  destruct (decide (q = nb)) as [->|Hne].
  - rewrite list_lookup_insert_eq by lia. intuition lia.
  - split.
    + intros [Hq Hv]. left. split; [done|].
      rewrite list_lookup_insert_ne in Hv; [done|lia].
    + intros [[Hq Hv]|?]; [|done]. split; [done|].
      rewrite list_lookup_insert_ne; [done|lia].
Qed.

(** The inner loop on neighbours that are addresses of the marker array:
    afterwards the marked points are those marked before and the
    neighbours, and the stack holds what it held and the neighbours that
    were not marked. *)
Lemma mark_loop_spec (nbs : list Z) :
  forall marker pointstack,
  (forall n, n ∈ nbs -> 0 <= n < len marker) ->
  exists marker' pointstack',
    mark_loop nbs marker pointstack = Ok (marker', pointstack') /\
    length marker' = length marker /\
    (forall q, marked marker' q <-> marked marker q \/ q ∈ nbs) /\
    (forall q, q ∈ pointstack' <->
               q ∈ pointstack \/ (q ∈ nbs /\ ~ marked marker q)).
Proof.
  induction nbs as [|nb rest IH]; intros marker stack Hrange; cbn [mark_loop].
  { exists marker, stack. split; [done|]. split; [done|].
    split; intros q; rewrite elem_of_nil; tauto. }
  assert (0 <= nb < len marker) as Hnb by (apply Hrange, list_elem_of_here).
  destruct (lookup_in_range marker nb Hnb) as [m Hm].
  assert (getitem marker nb = Ok m) as Hget by (by apply getitem_in_range).
  rewrite Hget. cbn [bind].
  destruct m; cbn [negb].
  - destruct (IH marker stack) as (marker' & stack' & Hloop & Hlen & Hmark & Hstack).
    { intros n Hn. apply Hrange. by apply list_elem_of_further. }
    exists marker', stack'. split; [done|]. split; [done|].
    assert (marked marker nb) as Hmnb by (split; [lia|done]).
    split; intros q.
    + rewrite Hmark, elem_of_cons. split; [tauto|].
      intros [?|[->|?]]; tauto.
    + rewrite Hstack, elem_of_cons. split; [tauto|].
      intros [?|[[->|?] ?]]; tauto.
  - unfold setitem. rewrite np_index_in_range by done. cbn [bind].
    destruct (IH (<[Z.to_nat nb := true]> marker) (nb :: stack))
      as (marker' & stack' & Hloop & Hlen & Hmark & Hstack).
    { intros n Hn. rewrite len_insert. apply Hrange. by apply list_elem_of_further. }
    exists marker', stack'. split; [done|].
    split; [by rewrite Hlen, length_insert|].
    assert (~ marked marker nb) as Hmnb.
    { intros [_ Hv]. congruence. }
    split; intros q.
    + rewrite Hmark, marked_insert, elem_of_cons by done. tauto.
    + rewrite Hstack, marked_insert, !elem_of_cons by done.
      destruct (decide (q = nb)) as [->|Hne]; tauto.
Qed.

(** The neighbours of the color [c] of a stone of the block are stones of
    the block. *)
Lemma block_neighbors (b : SimpleGoBoard) (c : color) (stone q : Z) :
  wf_board b -> is_black_white c = true ->
  stone_at (board b) c q -> connected b c stone q ->
  exists nbs,
    neighbors_of_color b q c = Ok nbs /\
    (forall n, n ∈ nbs <-> n ∈ _neighbors b q /\ getitem (board b) n = Ok c) /\
    (forall n, n ∈ nbs ->
       0 <= n < len (board b) /\ stone_at (board b) c n /\ connected b c stone n).
Proof.
  intros Hwf Hc Hq Hconn. pose proof (wf_size b Hwf) as Hs.
  pose proof (stone_on_board b c q Hwf Hc Hq) as Hon.
  eexists. split; [by apply neighbors_of_color_playable|].
  split.
  { intros n. by rewrite list_elem_of_filter, (comm and). }
  intros n [Hv Hn]%list_elem_of_filter.
  apply on_board_iff in Hon; [|lia].
  destruct Hon as (row & col & Hrow & Hcol & ->).
  destruct (neighbor_read b row col n Hwf Hrow Hcol) as (Hr & _).
  { apply elem_of_app. by left. }
  rewrite (wf_len b Hwf), (wf_maxpoint b Hwf).
  split; [done|]. split.
  - split; [lia|]. apply getitem_nonneg; [lia|done].
  - by apply (connected_step b c stone (coord_to_point row col (size b)) n).
Qed.

(** The outer loop, from a marker array and a stack that satisfy the
    invariant of the flood fill: every point on the stack is marked, every
    marked point is a stone of the block, and every marked point that is
    not on the stack has its neighbours of the color marked. *)
Lemma block_loop_spec (b : SimpleGoBoard) (c : color) (stone : Z) (fuel : nat) :
  wf_board b -> is_black_white c = true ->
  forall marker pointstack,
  length marker = length (board b) ->
  (count_false marker + length pointstack <= fuel)%nat ->
  (forall q, q ∈ pointstack -> marked marker q) ->
  (forall q, marked marker q -> stone_at (board b) c q /\ connected b c stone q) ->
  (forall q, marked marker q ->
     q ∈ pointstack \/
     forall n, n ∈ _neighbors b q -> getitem (board b) n = Ok c -> marked marker n) ->
  exists marker',
    block_loop fuel b c marker pointstack = Some (Ok marker') /\
    length marker' = length marker /\
    (forall q, marked marker q -> marked marker' q) /\
    (forall q, marked marker' q -> stone_at (board b) c q /\ connected b c stone q) /\
    (forall q, marked marker' q ->
       forall n, n ∈ _neighbors b q -> getitem (board b) n = Ok c ->
                 marked marker' n).
Proof.
  intros Hwf Hc.
  induction fuel as [|fuel IH]; intros marker stack Hlen Hfuel Hstack Hgood Hfront.
  - destruct stack as [|p rest]; [|cbn in Hfuel; lia].
    exists marker. split; [done|]. split; [done|]. split; [done|]. split; [done|].
    intros q Hq. destruct (Hfront q Hq) as [Hin|Hcl]; [|done].
    by apply elem_of_nil in Hin.
  - destruct stack as [|p rest].
    { exists marker. split; [done|]. split; [done|]. split; [done|]. split; [done|].
      intros q Hq. destruct (Hfront q Hq) as [Hin|Hcl]; [|done].
      by apply elem_of_nil in Hin. }
    cbn [block_loop].
    assert (marked marker p) as Hp by (apply Hstack, list_elem_of_here).
    destruct (Hgood p Hp) as [Hpstone Hpconn].
    destruct (block_neighbors b c stone p Hwf Hc Hpstone Hpconn)
      as (nbs & Hnbs & Hnbs_iff & Hnbs_good).
    rewrite Hnbs.
    destruct (mark_loop_spec nbs marker rest)
      as (marker1 & stack1 & Hloop & Hlen1 & Hmark1 & Hstack1).
    { intros n Hn. unfold len. rewrite Hlen. by apply Hnbs_good. }
    rewrite Hloop.
    pose proof (mark_loop_measure nbs _ _ _ _ Hloop) as [_ Hcount].
    destruct (IH marker1 stack1) as (marker' & Hres & Hlen' & Hmono & Hgood' & Hclosed).
    + by rewrite Hlen1.
    + cbn [length] in Hfuel. lia.
    + intros q Hq. apply Hmark1. apply Hstack1 in Hq as [Hq|[Hq _]]; [|by right].
      left. apply Hstack. by apply list_elem_of_further.
    + intros q Hq. apply Hmark1 in Hq as [Hq|Hq]; [by apply Hgood|].
      destruct (Hnbs_good q Hq) as (_ & H1 & H2). by split.
    + intros q Hq.
      destruct (decide (marked marker q)) as [Hold|Hnew].
      * destruct (Hfront q Hold) as [Hin|Hcl].
        -- apply elem_of_cons in Hin as [->|Hin].
           ++ right. intros n Hn Hv. apply Hmark1. right. by apply Hnbs_iff.
           ++ left. apply Hstack1. by left.
        -- right. intros n Hn Hv. apply Hmark1. left. by apply Hcl.
      * left. apply Hstack1. right. split; [|done].
        apply Hmark1 in Hq as [Hq|Hq]; [done|done].
    + exists marker'. split; [done|]. split; [by rewrite Hlen', Hlen1|].
      split; [|by split].
      intros q Hq. apply Hmono, Hmark1. by left.
Qed.

(** What [_block_of] returns for a stone of a well-formed board. *)
Lemma block_of_marker (b : SimpleGoBoard) (stone : Z) (c : color) :
  wf_board b ->
  is_black_white c = true ->
  0 <= stone ->
  get_color b stone = Ok c ->
  exists marker,
    _block_of b stone = Some (Ok marker) /\
    len marker = len (board b) /\
    (forall q, marked marker q <-> connected b c stone q) /\
    (forall q, marked marker q -> stone_at (board b) c q).
Proof.
  intros Hwf Hc Hnn Hget.
  assert (stone_at (board b) c stone) as Hstone.
  { split; [done|]. by apply getitem_nonneg. }
  pose proof (lookup_lt_Some _ _ _ (proj2 Hstone)) as Hlt.
  pose proof (wf_len b Hwf) as Hlen. unfold len in Hlen.
  set (n := Z.to_nat (maxpoint b)).
  assert (n = length (board b)) as Hn by (unfold n; lia).
  assert (0 <= stone < len (replicate n false)) as Hrange.
  { unfold len. rewrite length_replicate. lia. }
  set (marker0 := <[Z.to_nat stone := true]> (replicate n false)).
  assert (forall q, marked marker0 q <-> q = stone) as Hm0.
  { intros q. unfold marker0. rewrite marked_insert by done. split; [|by right].
    intros [[_ Hv]|?]; [|done]. apply lookup_replicate in Hv as [? _]. done. }
  destruct (block_loop_spec b c stone (length marker0) Hwf Hc marker0 [stone])
    as (marker & Hres & Hlen' & Hmono & Hgood & Hclosed).
  - unfold marker0. by rewrite length_insert, length_replicate.
  - assert (replicate n false !! Z.to_nat stone = Some false) as Hf.
    { apply lookup_replicate_2. lia. }
    pose proof (count_false_insert _ _ Hf) as Hcf.
    pose proof (count_false_le (replicate n false)) as Hle.
    unfold marker0. rewrite length_insert. cbn [length]. lia.
  - intros q ->%list_elem_of_singleton. by apply Hm0.
  - intros q ->%Hm0. split; [done|]. constructor.
  - intros q ->%Hm0. left. by apply list_elem_of_singleton.
  - exists marker. split.
    { unfold _block_of. rewrite Hget, Hc. cbn [negb].
      unfold setitem. rewrite np_index_in_range by done. exact Hres. }
    split.
    { unfold len. rewrite Hlen'. unfold marker0.
      rewrite length_insert, length_replicate. lia. }
    split; [|intros q Hq; by apply Hgood].
    intros q. split; [intros Hq; by apply Hgood|].
    induction 1 as [|q n' Hq IH Hn' Hv].
    + apply Hmono. by apply Hm0.
    + by apply (Hclosed q IH n' Hn').
Qed.

(** X13: on a well-formed board, for an address that holds a stone,
    [_block_of] returns a marker array as long as the board's array in
    which exactly the points of the block are marked: the points joined to
    the stone by a path of neighbours that all hold its color.  All of
    them are stones of that color. *)
Theorem block_of_component (b : SimpleGoBoard) (stone : Z) (c : color) :
  wf_board b ->
  is_black_white c = true ->
  0 <= stone ->
  get_color b stone = Ok c ->
  exists marker,
    _block_of b stone = Some (Ok marker) /\
    len marker = len (board b) /\
    (forall q, marked marker q <-> connected b c stone q) /\
    (forall q, marked marker q -> stone_at (board b) c q).
Proof. apply block_of_marker. Qed.

Lemma block_of_component_witness :
  exists marker,
    _block_of (with_stones empty5 BLACK [19; 20; 21; 15; 8]) 19 = Some (Ok marker) /\
    len marker = 43 /\
    (forall q, marked marker q <->
               connected (with_stones empty5 BLACK [19; 20; 21; 15; 8]) BLACK 19 q).
Proof.
  destruct (block_of_component (with_stones empty5 BLACK [19; 20; 21; 15; 8]) 19 BLACK)
    as (marker & H1 & H2 & H3 & _);
    [constructor; by vm_compute | reflexivity | by vm_compute | reflexivity |].
  exists marker. split; [exact H1|]. split; [exact H2|exact H3].
Defined.

(** The block of 19 on a board with black stones on 19, 20, 21, 15 and
    8: the three in the row and the one above 21; the stone on 8 is not
    joined to them. *)
Lemma block_of_example :
  option_map (fun r => match r with Ok marker => where1d marker | Raise _ => [] end)
             (_block_of (with_stones empty5 BLACK [19; 20; 21; 15; 8]) 19)
  = Some [15; 19; 20; 21].
Proof. by vm_compute. Qed.

(** ** Addresses of a condition *)

Lemma where1d_from_elem (cond : list bool) :
  forall i q, q ∈ where1d_from i cond <->
              i <= q /\ cond !! Z.to_nat (q - i) = Some true.
Proof.
  induction cond as [|x cond IH]; intros i q; cbn [where1d_from].
  { rewrite elem_of_nil. split; [done|]. by intros [_ ?]. }
  assert (q ∈ where1d_from (i + 1) cond <->
          i < q /\ (x :: cond) !! Z.to_nat (q - i) = Some true) as Hrest.
  { rewrite IH. split.
    - intros [Hq Hv]. split; [lia|].
      replace (Z.to_nat (q - i)) with (S (Z.to_nat (q - (i + 1)))) by lia. done.
    - intros [Hq Hv]. split; [lia|].
      replace (Z.to_nat (q - i)) with (S (Z.to_nat (q - (i + 1)))) in Hv by lia. done. }
  destruct x.
  - rewrite elem_of_cons, Hrest. split.
    + intros [->|[Hq Hv]]; [|split; [lia|done]].
      split; [lia|]. by replace (Z.to_nat (i - i)) with 0%nat by lia.
    + intros [Hq Hv]. destruct (decide (q = i)) as [|Hne]; [by left|right].
      split; [lia|done].
  - rewrite Hrest. split; [intros [Hq Hv]; split; [lia|done]|].
    intros [Hq Hv]. split; [|done].
    destruct (decide (q = i)) as [->|Hne]; [|lia].
    by replace (Z.to_nat (i - i)) with 0%nat in Hv by lia.
Qed.

Lemma where1d_elem (cond : list bool) (q : Z) :
  q ∈ where1d cond <-> marked cond q.
Proof.
  unfold where1d, marked. rewrite where1d_from_elem.
  by replace (q - 0) with q by lia.
Qed.

Lemma where1d_from_sorted (cond : list bool) :
  forall i, Sorted.StronglySorted Z.lt (where1d_from i cond).
Proof.
  induction cond as [|x cond IH]; intros i; cbn [where1d_from]; [constructor|].
  destruct x; [|apply IH]. constructor; [apply IH|].
  apply Forall_forall. intros q [Hq _]%where1d_from_elem. lia.
Qed.

Lemma where1d_from_length (cond : list bool) :
  forall i, length (where1d_from i cond) = length (filter (fun x => x = true) cond).
Proof.
  induction cond as [|x cond IH]; intros i; cbn [where1d_from]; [done|].
  rewrite filter_cons. destruct x.
  - destruct (decide (true = true)); [|done]. cbn [length]. by rewrite IH.
  - destruct (decide (false = true)); [done|]. by rewrite IH.
Qed.

Lemma where1d_NoDup (cond : list bool) : NoDup (where1d cond).
Proof.
  unfold where1d. generalize 0. induction cond as [|x cond IH]; intros i;
    cbn [where1d_from]; [constructor|].
  destruct x; [|apply IH]. constructor; [|apply IH].
  intros [Hq _]%where1d_from_elem. lia.
Qed.

(** X14: [get_empty_points] lists, in ascending order and each once, the
    addresses whose cell is EMPTY, as many as there are EMPTY cells.  A
    move that [play_move] accepts on an address that is not negative takes
    exactly that address off the list. *)
Theorem get_empty_points_spec (b : SimpleGoBoard) :
  (forall q, q ∈ get_empty_points b <-> 0 <= q /\ get_color b q = Ok EMPTY) /\
  Sorted.StronglySorted Z.lt (get_empty_points b) /\
  length (get_empty_points b) = count_color EMPTY (board b) /\
  (forall p c b', 0 <= p -> play_move b (Point p) c = Ok (true, b') ->
     forall q, q ∈ get_empty_points b' <-> q ∈ get_empty_points b /\ q <> p).
Proof.
  assert (forall (b0 : SimpleGoBoard) q,
            q ∈ get_empty_points b0 <->
            0 <= q /\ board b0 !! Z.to_nat q = Some EMPTY) as Hlook.
  { intros b0 q. unfold get_empty_points. rewrite where1d_elem. unfold marked.
    rewrite list_lookup_fmap. split; intros [Hq Hv]; (split; [done|]).
    - destruct (board b0 !! Z.to_nat q) as [v|]; [|done]. cbn in Hv.
      injection Hv as Hv. by apply bool_decide_eq_true in Hv as ->.
    - rewrite Hv. cbn. by rewrite bool_decide_eq_true_2. }
  split; [|split; [|split]].
  - intros q. rewrite Hlook. unfold get_color. split; intros [Hq Hv]; (split; [done|]).
    + by apply getitem_lookup.
    + by apply getitem_nonneg.
  - apply where1d_from_sorted.
  - unfold get_empty_points, where1d, count_color. rewrite where1d_from_length.
    induction (board b) as [|v cells IH]; [done|].
    cbn [map]. rewrite !filter_cons.
    destruct (decide (v = EMPTY)) as [->|Hne].
    + rewrite bool_decide_eq_true_2 by done.
      destruct (decide (true = true)); [|done]. cbn [length]. by rewrite IH.
    + rewrite bool_decide_eq_false_2 by done.
      destruct (decide (false = true)); [done|]. by rewrite IH.
  - intros p c b' Hp Hplay q.
    destruct (is_black_white c) eqn:Hc;
      [|by unfold play_move in Hplay; rewrite Hc in Hplay].
    destruct (play_move_cases b p c Hc)
      as [(e & _ & E)|[(v & _ & _ & E)|(k & _ & Hk & Hv & E)]];
      rewrite E in Hplay; [done|done|]. injection Hplay as <-.
    assert (k = Z.to_nat p) as ->.
    { unfold np_index in Hk. case_bool_decide; [congruence|].
      case_bool_decide; [lia|done]. }
    rewrite !Hlook. cbn [board].
    destruct (decide (q = p)) as [->|Hne].
    + rewrite list_lookup_insert_eq by (by apply lookup_lt_Some in Hv).
      split; [|tauto]. intros [_ [= ->]]. done.
    + split.
      * intros [Hq Hvq]. rewrite list_lookup_insert_ne in Hvq by lia. done.
      * intros [[Hq Hvq] _]. split; [done|]. rewrite list_lookup_insert_ne by lia. done.
Qed.

Lemma get_empty_points_spec_witness :
  20 ∈ get_empty_points (play_all empty5 [(21, BLACK)])
  <-> 20 ∈ get_empty_points empty5 /\ 20 <> 21.
Proof.
  apply (proj2 (proj2 (proj2 (get_empty_points_spec empty5))) 21 BLACK);
    [lia|by vm_compute].
Defined.

(** ** Liberties and captures *)

Lemma has_liberty_loop_spec (b : SimpleGoBoard) (stones : list Z) :
  wf_board b ->
  (forall q, q ∈ stones -> on_board (size b) q = true) ->
  exists r, has_liberty_loop b stones = Ok r /\
    (r = true <->
     exists q n, q ∈ stones /\ n ∈ _neighbors b q /\ getitem (board b) n = Ok EMPTY).
Proof.
  intros Hwf. induction stones as [|stone rest IH]; intros Hon; cbn [has_liberty_loop].
  { exists false. split; [done|]. split; [done|].
    intros (q & n & Hq & _). by apply elem_of_nil in Hq. }
  rewrite (neighbors_of_color_playable b stone EMPTY Hwf)
    by (apply Hon, list_elem_of_here).
  cbn [bind].
  destruct (filter (fun n => getitem (board b) n = Ok EMPTY) (_neighbors b stone))
    as [|n l] eqn:Hf.
  - destruct IH as (r & Hr & Hiff).
    { intros q Hq. apply Hon. by apply list_elem_of_further. }
    exists r. split; [done|]. rewrite Hiff. split.
    + intros (q & n & Hq & Hn & Hv). exists q, n. split; [|done].
      by apply list_elem_of_further.
    + intros (q & n & Hq & Hn & Hv). apply elem_of_cons in Hq as [->|Hq].
      * assert (n ∈ filter (fun n => getitem (board b) n = Ok EMPTY)
                       (_neighbors b stone)) as Hin
          by (by apply list_elem_of_filter).
        rewrite Hf in Hin. by apply elem_of_nil in Hin.
      * by exists q, n.
  - exists true. split; [done|]. split; [|done]. intros _.
    assert (n ∈ filter (fun n => getitem (board b) n = Ok EMPTY)
                     (_neighbors b stone)) as Hin
      by (rewrite Hf; apply list_elem_of_here).
    apply list_elem_of_filter in Hin as [Hv Hn].
    exists stone, n. split; [apply list_elem_of_here|done].
Qed.

(** What [_has_liberty] returns for a marker array on the playable grid. *)
Lemma has_liberty_marked (b : SimpleGoBoard) (block : list bool) :
  wf_board b ->
  (forall q, marked block q -> on_board (size b) q = true) ->
  exists r, _has_liberty b block = Ok r /\
    (r = true <->
     exists q n, marked block q /\ n ∈ _neighbors b q /\ get_color b n = Ok EMPTY).
Proof.
  intros Hwf Hon.
  destruct (has_liberty_loop_spec b (where1d block) Hwf) as (r & Hr & Hiff).
  { intros q Hq. apply Hon. by apply where1d_elem. }
  exists r. split; [done|]. rewrite Hiff.
  split; intros (q & n & Hq & Hn & Hv); exists q, n;
    (split; [by apply where1d_elem|done]).
Qed.

(** X15: on a well-formed board, for a marker array whose marked points
    are points of the playable grid, [_has_liberty] raises nothing and
    returns true exactly when some marked point has a neighbour whose cell
    is EMPTY. *)
Theorem has_liberty_spec (b : SimpleGoBoard) (block : list bool) :
  wf_board b ->
  (forall q, marked block q -> on_board (size b) q = true) ->
  exists r, _has_liberty b block = Ok r /\
    (r = true <->
     exists q n, marked block q /\ n ∈ _neighbors b q /\ get_color b n = Ok EMPTY).
Proof. apply has_liberty_marked. Qed.

Lemma has_liberty_spec_witness :
  exists r, _has_liberty captured_corner (<[Z.to_nat 7 := true]> (replicate 43 false)) = Ok r /\
    (r = true <->
     exists q n, marked (<[Z.to_nat 7 := true]> (replicate 43 false)) q /\
                 n ∈ _neighbors captured_corner q /\
                 get_color captured_corner n = Ok EMPTY).
Proof.
  apply (has_liberty_spec captured_corner (<[Z.to_nat 7 := true]> (replicate 43 false))).
  - constructor; by vm_compute.
  - intros q Hq. apply marked_insert in Hq as [[_ Hv]| ->]; [|by vm_compute|by vm_compute].
    apply lookup_replicate in Hv as [? _]. done.
Defined.

Lemma index_all_in_range (n : Z) (idxs : list Z) :
  (forall i, i ∈ idxs -> 0 <= i < n) ->
  index_all n idxs = Some (map Z.to_nat idxs).
Proof.
  induction idxs as [|i rest IH]; intros Hr; [done|]. cbn [index_all map].
  rewrite np_index_in_range by (apply Hr, list_elem_of_here).
  rewrite IH; [done|]. intros j Hj. apply Hr. by apply list_elem_of_further.
Qed.

Lemma foldl_insert_length {A : Type} (v : A) (ks : list nat) :
  forall l, length (foldl (fun cells k => <[k := v]> cells) l ks) = length l.
Proof.
  induction ks as [|k ks IH]; intros l; [done|]. cbn [foldl].
  by rewrite IH, length_insert.
Qed.

Lemma foldl_insert_lookup {A : Type} (v : A) (ks : list nat) :
  forall l i,
  foldl (fun cells k => <[k := v]> cells) l ks !! i
  = if decide (i ∈ ks /\ (i < length l)%nat) then Some v else l !! i.
Proof.
  induction ks as [|k ks IH]; intros l i; cbn [foldl].
  { destruct (decide _) as [[Hin _]|_]; [|done]. by apply elem_of_nil in Hin. }
  rewrite IH, length_insert.
  destruct (decide (i ∈ ks /\ (i < length l)%nat)) as [[Hin Hlt]|Hno].
  - rewrite decide_True; [done|]. split; [by apply list_elem_of_further|done].
  - destruct (decide (i = k)) as [->|Hne].
    + destruct (decide (k < length l)%nat) as [Hlt|Hge].
      * rewrite list_lookup_insert_eq by done.
        rewrite decide_True; [done|]. split; [apply list_elem_of_here|done].
      * rewrite list_insert_ge by lia. rewrite decide_False; [done|]. tauto.
    + rewrite list_lookup_insert_ne by done. rewrite decide_False; [done|].
      rewrite elem_of_cons. tauto.
Qed.

Lemma length_one_all_equal {A : Type} (l : list A) (a : A) :
  NoDup l -> a ∈ l -> (forall x, x ∈ l -> x = a) -> length l = 1%nat.
Proof.
  intros Hnd Ha Hall. destruct l as [|x [|y l]]; [by apply elem_of_nil in Ha|done|].
  exfalso. assert (x = a) as -> by (apply Hall, list_elem_of_here).
  assert (y = a) as -> by (apply Hall, list_elem_of_further, list_elem_of_here).
  apply NoDup_cons in Hnd as [Hnin _]. apply Hnin, list_elem_of_here.
Qed.

(** X16: [_detect_and_process_capture] on a well-formed board, for an
    address that holds a stone.  When some stone of its block has an EMPTY
    neighbour, the board stays as it is and None is returned.  When none
    has, every stone of the block is replaced by EMPTY and nothing else
    changes, the board stays well formed, and the point is returned
    exactly when the block is that one stone, None otherwise. *)
Theorem detect_and_process_capture_spec (b : SimpleGoBoard) (stone : Z) (c : color) :
  wf_board b ->
  is_black_white c = true ->
  0 <= stone ->
  get_color b stone = Ok c ->
  exists single b',
    _detect_and_process_capture b stone = Some (Ok (single, b')) /\
    ((exists q n, connected b c stone q /\ n ∈ _neighbors b q /\
                  get_color b n = Ok EMPTY) ->
     single = None /\ b' = b) /\
    (~ (exists q n, connected b c stone q /\ n ∈ _neighbors b q /\
                    get_color b n = Ok EMPTY) ->
     (forall q, connected b c stone q -> get_color b' q = Ok EMPTY) /\
     (forall q, 0 <= q -> ~ connected b c stone q ->
                board b' !! Z.to_nat q = board b !! Z.to_nat q) /\
     set_board b' (board b) = b /\
     wf_board b' /\
     (single = Some stone <-> forall q, connected b c stone q -> q = stone) /\
     (single = None <-> exists q, connected b c stone q /\ q <> stone)).
Proof.
  intros Hwf Hc Hnn Hget.
  destruct (block_of_marker b stone c Hwf Hc Hnn Hget)
    as (marker & Hblock & Hlen & Hconn & Hstones).
  destruct (has_liberty_marked b marker Hwf) as (r & Hlib & Hiff).
  { intros q Hq. by apply (stone_on_board b c q Hwf Hc), Hstones. }
  assert (r = true <->
          exists q n, connected b c stone q /\ n ∈ _neighbors b q /\
                      get_color b n = Ok EMPTY) as Hiff'.
  { rewrite Hiff. split; intros (q & n & Hq & Hn & Hv); exists q, n;
      (split; [by apply Hconn|done]). }
  clear Hiff. unfold _detect_and_process_capture. rewrite Hblock, Hlib. cbn [bind].
  destruct r; cbn [negb].
  { exists None, b. split; [done|]. split; [done|].
    intros Hno. exfalso. apply Hno. by apply Hiff'. }
  assert (forall q, q ∈ where1d marker <-> connected b c stone q) as Hcap.
  { intros q. by rewrite where1d_elem. }
  assert (forall q, q ∈ where1d marker -> 0 <= q < len (board b)) as Hrange.
  { intros q [Hq Hv]%where1d_elem. apply lookup_lt_Some in Hv.
    unfold len in *. lia. }
  unfold setitems. rewrite (index_all_in_range _ _ Hrange). cbn [bind].
  set (cells := foldl _ (board b) _).
  assert (forall i, cells !! i =
            if decide (marked marker (Z.of_nat i) /\ (i < length (board b))%nat)
            then Some EMPTY else board b !! i) as Hcells.
  { intros i. unfold cells. rewrite foldl_insert_lookup.
    assert (i ∈ map Z.to_nat (where1d marker) <-> marked marker (Z.of_nat i))
      as Hin.
    { rewrite list_elem_of_fmap. split.
      - intros (q & -> & Hq). pose proof (Hrange q Hq).
        rewrite Z2Nat.id by lia. by apply where1d_elem.
      - intros Hq. exists (Z.of_nat i). split; [lia|]. by apply where1d_elem. }
    destruct (decide (i ∈ map Z.to_nat (where1d marker) /\ (i < length (board b))%nat))
      as [[H1 H2]|Hno].
    - rewrite decide_True; [done|]. split; [by apply Hin|done].
    - rewrite decide_False; [done|]. rewrite <- Hin. done. }
  assert (stone ∈ where1d marker) as Hstone_in by (apply Hcap; constructor).
  eexists _, _. split; [reflexivity|]. split.
  { intros Hex. apply Hiff' in Hex. done. }
  intros _. cbn [board set_board].
  split; [|split; [|split; [|split; [|split]]]].
  - intros q Hq. pose proof (Hrange q (proj2 (Hcap q) Hq)) as Hr.
    unfold get_color. cbn [board]. apply getitem_lookup; [lia|].
    rewrite Hcells, Z2Nat.id by lia. rewrite decide_True; [done|].
    split; [by apply Hconn|]. unfold len in Hr. lia.
  - intros q Hq Hno. rewrite Hcells, Z2Nat.id by lia.
    rewrite decide_False; [done|]. rewrite Hconn. tauto.
  - by destruct b.
  - destruct Hwf as [H1 H2 H3 H4 H5 H6]. constructor; cbn; try done.
    + unfold len, cells. rewrite foldl_insert_length. done.
    + apply cells_ok_lookup. intros i v Hv. rewrite Hcells in Hv.
      destruct (decide _) as [[Hq _]|_].
      * injection Hv as <-.
        assert (on_board (size b) (Z.of_nat i) = true) as Hon.
        { apply (stone_on_board b c _ (mk_wf b H1 H2 H3 H4 H5 H6) Hc).
          by apply Hstones. }
        unfold cell_ok. rewrite Hon. by apply bool_decide_eq_true_2.
      * by apply (proj1 (cells_ok_lookup _ _) H6).
  - case_bool_decide as Hone.
    + split; [|done]. intros _ q Hq%Hcap.
      unfold len in Hone. destruct (where1d marker) as [|x [|y l]]; cbn in Hone; try lia.
      apply list_elem_of_singleton in Hq, Hstone_in. congruence.
    + split; [done|]. intros Hall. exfalso. apply Hone.
      unfold len. rewrite (length_one_all_equal (where1d marker) stone); [done| |done|].
      * apply where1d_NoDup.
      * intros x Hx%Hcap. by apply Hall.
  - case_bool_decide as Hone.
    + split; [done|]. intros (q & Hq%Hcap & Hne). exfalso.
      unfold len in Hone. destruct (where1d marker) as [|x [|y l]]; cbn in Hone; try lia.
      apply list_elem_of_singleton in Hq, Hstone_in. congruence.
    + split; [|done]. intros _.
      destruct (decide (Exists (fun q => q <> stone) (where1d marker)))
        as [(q & Hq & Hne)%Exists_exists|Hno].
      * exists q. split; [by apply Hcap|done].
      * exfalso. apply Hone. unfold len.
        rewrite (length_one_all_equal (where1d marker) stone); [done| |done|].
        -- apply where1d_NoDup.
        -- intros x Hx. destruct (decide (x = stone)); [done|].
           exfalso. apply Hno, Exists_exists. by exists x.
Qed.

Lemma detect_and_process_capture_spec_witness :
  exists single b',
    _detect_and_process_capture captured_corner 7 = Some (Ok (single, b')) /\
    wf_board b'.
Proof.
  destruct (detect_and_process_capture_spec captured_corner 7 BLACK)
    as (single & b' & Hd & _ & Hcap);
    [constructor; by vm_compute | reflexivity | lia | reflexivity |].
  exists single, b'. split; [exact Hd|].
  apply Hcap. intros (q & n & Hq & Hn & Hv).
  assert (q = 7) as ->.
  { clear Hn Hv. induction Hq as [|q n' Hq IH Hn' Hv']; [done|]. subst q.
    unfold _neighbors in Hn'. cbn in Hn'.
    rewrite !elem_of_cons, elem_of_nil in Hn'.
    destruct Hn' as [->|[->|[->|[->|[]]]]]; by vm_compute in Hv'. }
  unfold _neighbors in Hn. cbn in Hn. rewrite !elem_of_cons, elem_of_nil in Hn.
  destruct Hn as [->|[->|[->|[->|[]]]]]; by vm_compute in Hv.
Defined.

(** ** The grid of a new board *)

Lemma get_empty_points_lookup (b : SimpleGoBoard) (q : Z) :
  q ∈ get_empty_points b <-> 0 <= q /\ board b !! Z.to_nat q = Some EMPTY.
Proof.
  unfold get_empty_points. rewrite where1d_elem. unfold marked.
  rewrite list_lookup_fmap. split; intros [Hq Hv]; (split; [done|]).
  - destruct (board b !! Z.to_nat q) as [v|]; [|done]. cbn in Hv.
    injection Hv as Hv. by apply bool_decide_eq_true in Hv as ->.
  - rewrite Hv. cbn. by rewrite bool_decide_eq_true_2.
Qed.

Lemma get_empty_points_length (b : SimpleGoBoard) :
  length (get_empty_points b) = count_color EMPTY (board b).
Proof.
  unfold get_empty_points, where1d, count_color. rewrite where1d_from_length.
  induction (board b) as [|v cells IH]; [done|].
  cbn [map]. rewrite !filter_cons.
  destruct (decide (v = EMPTY)) as [->|Hne].
  - rewrite bool_decide_eq_true_2 by done.
    destruct (decide (true = true)); [|done]. cbn [length]. by rewrite IH.
  - rewrite bool_decide_eq_false_2 by done.
    destruct (decide (false = true)); [done|]. by rewrite IH.
Qed.

(** X17: on the board that [__init__] builds, [pt] maps the rows and
    columns from 1 to the size one to one onto the addresses that
    [get_empty_points] lists, size * size of them. *)
Theorem fresh_empty_points (MAXSIZE sz : Z) (b : SimpleGoBoard) :
  init MAXSIZE sz = Ok b ->
  (forall q, q ∈ get_empty_points b <->
             exists row col, 1 <= row <= sz /\ 1 <= col <= sz /\ q = pt b row col) /\
  Z.of_nat (length (get_empty_points b)) = sz * sz /\
  (forall row col row' col',
     1 <= row <= sz -> 1 <= col <= sz -> 1 <= row' <= sz -> 1 <= col' <= sz ->
     pt b row col = pt b row' col' -> row = row' /\ col = col').
Proof.
  intros Hinit. unfold init in Hinit. case_bool_decide as Hsz; [|done].
  cbn in Hinit. rewrite reset_layout in Hinit by lia. injection Hinit as <-.
  split; [|split].
  - intros q. rewrite get_empty_points_lookup. cbn [board].
    unfold pt. cbn [size]. rewrite <- on_board_iff by lia. split.
    + intros [Hq Hv]. apply layout_lookup in Hv; [|lia].
      rewrite Z2Nat.id in Hv by lia. by destruct (on_board sz q).
    + intros Hon.
      assert (0 <= q < sz * sz + 3 * (sz + 1)) as Hr.
      { apply on_board_iff in Hon; [|lia].
        destruct Hon as (row & col & Hrow & Hcol & ->). unfold coord_to_point. nia. }
      split; [lia|]. apply getitem_nonneg; [lia|].
      rewrite layout_get by lia. by rewrite Hon.
  - rewrite get_empty_points_length. cbn [board].
    apply (count_color_layout EMPTY). lia.
  - intros row col row' col' Hrow Hcol Hrow' Hcol'. unfold pt, coord_to_point.
    cbn [size]. intros Heq. assert (row = row') by nia. subst row'. lia.
Qed.

Lemma fresh_empty_points_witness :
  Z.of_nat (length (get_empty_points empty5)) = 5 * 5.
Proof. apply (fresh_empty_points 25 5 empty5). reflexivity. Defined.

(** ** The block of a stone does not depend on the stone *)

Lemma neighbors_sym {A : Type} (b : GoBoard A) (p q : Z) :
  p ∈ _neighbors b q -> q ∈ _neighbors b p.
Proof.
  unfold _neighbors. rewrite !elem_of_cons, !elem_of_nil.
  intros [->|[->|[->|[->|[]]]]]; lia.
Qed.

Lemma connected_trans (b : SimpleGoBoard) (c : color) (x y z : Z) :
  connected b c x y -> connected b c y z -> connected b c x z.
Proof.
  intros Hxy Hyz. induction Hyz as [|q n Hq IH Hn Hv]; [done|].
  by apply (connected_step b c x q n).
Qed.

Lemma connected_sym (b : SimpleGoBoard) (c : color) (x y : Z) :
  get_color b x = Ok c -> connected b c x y -> connected b c y x.
Proof.
  intros Hx Hxy. induction Hxy as [|q n Hq IH Hn Hv]; [constructor|].
  apply (connected_trans b c n q x); [|done].
  apply (connected_step b c n n q); [constructor|by apply neighbors_sym|].
  destruct Hq as [|q' n' Hq' Hn' Hv']; done.
Qed.

Lemma marker_ext (m1 m2 : list bool) :
  length m1 = length m2 ->
  (forall q, marked m1 q <-> marked m2 q) ->
  m1 = m2.
Proof.
  intros Hlen Hsame. apply list_eq. intros i.
  destruct (m1 !! i) as [x|] eqn:H1, (m2 !! i) as [y|] eqn:H2.
  - f_equal. specialize (Hsame (Z.of_nat i)). unfold marked in Hsame.
    rewrite Nat2Z.id, H1, H2 in Hsame.
    destruct x, y; try done.
    + assert (Some false = Some true) by (apply Hsame; split; [lia|done]). done.
    + assert (Some false = Some true) by (apply Hsame; split; [lia|done]). done.
  - apply lookup_lt_Some in H1. apply lookup_ge_None in H2. lia.
  - apply lookup_lt_Some in H2. apply lookup_ge_None in H1. lia.
  - done.
Qed.

(** X18: on a well-formed board, [_block_of] started from any stone of a
    block returns the same marker array as from the stone the block was
    first computed from. *)
Theorem block_of_any_stone (b : SimpleGoBoard) (stone other : Z) (c : color)
    (marker : list bool) :
  wf_board b ->
  is_black_white c = true ->
  0 <= stone ->
  get_color b stone = Ok c ->
  _block_of b stone = Some (Ok marker) ->
  marked marker other ->
  _block_of b other = Some (Ok marker).
Proof.
  intros Hwf Hc Hnn Hget Hblock Hother.
  destruct (block_of_marker b stone c Hwf Hc Hnn Hget)
    as (marker1 & Hblock1 & Hlen1 & Hconn1 & Hstones1).
  assert (marker1 = marker) as -> by congruence.
  destruct (Hstones1 other Hother) as [Hnn' Hv'].
  assert (get_color b other = Ok c) as Hget' by (by apply getitem_lookup).
  destruct (block_of_marker b other c Hwf Hc Hnn' Hget')
    as (marker2 & Hblock2 & Hlen2 & Hconn2 & _).
  rewrite Hblock2. do 2 f_equal. apply marker_ext.
  - unfold len in *. lia.
  - intros q. rewrite Hconn1, Hconn2.
    pose proof (proj1 (Hconn1 other) Hother) as Hso.
    split; intros Hq.
    + by apply (connected_trans b c stone other q).
    + apply (connected_trans b c other stone q); [|done].
      by apply connected_sym.
Qed.

Lemma block_of_any_stone_witness :
  _block_of (with_stones empty5 BLACK [19; 20; 21; 15; 8]) 15
  = Some (Ok (<[15%nat := true]> (<[19%nat := true]> (<[20%nat := true]>
               (<[21%nat := true]> (replicate 43 false)))))).
Proof.
  apply (block_of_any_stone (with_stones empty5 BLACK [19; 20; 21; 15; 8]) 19 15 BLACK);
    [constructor; by vm_compute | reflexivity | lia | reflexivity
    | by vm_compute | by vm_compute].
Defined.
